(** * Relinking engine of build_binary.py (getsentry/prebuilt-pythons)

    Shallow embedding of the closure walk [_relink_1], of the two link
    inspectors [_linux_linked] / [_darwin_linked] (with [_libc6_links]) and of
    the two relinkers [_linux_relink] / [_darwin_relink]. *)

From Stdlib Require Import String Ascii List Bool Arith ZArith Lia Permutation Sorted.
Import ListNotations.
Open Scope string_scope.
Open Scope list_scope.

(** ** Paths

    A path is modelled as its list of components ([/a/b/c] is
    [["a"; "b"; "c"]]); [os.path.basename] is the last component,
    [os.path.join d s] with a bare file name [s] appends it, and
    [os.path.dirname] drops the last component. *)

Definition path := list string.

Definition basename (p : path) : string := last p ""%string.

Definition join (d : path) (s : string) : path := d ++ [s].

Definition dirname (p : path) : path := removelast p.

Definition path_eqb (p q : path) : bool :=
  if list_eq_dec string_dec p q then true else false.

(** ** The closure walk [_relink_1]

    The orchestration is platform agnostic: it only calls [plat.linked] and
    [plat.relink] (the [Platform] named tuple).  The file system maps a path
    to the content of the file there ([None]: no such file).  The world also
    carries a log of the relink calls and copies the walk performs; the log
    is ghost state, written only to observe the order of these effects. *)

Section Walk.

Variable content : Type.

Definition FS := path -> option content.

Definition fs_update (fs : FS) (p : path) (v : option content) : FS :=
  fun q => if path_eqb q p then v else fs q.

(** [os.path.exists] *)
Definition exists_ (fs : FS) (p : path) : bool :=
  match fs p with Some _ => true | None => false end.

(** The two operations of [Platform] the walk uses.  [None] is a raised
    exception (an [AssertionError] of the inspector, a
    [CalledProcessError] of a rewrite command). *)
Record Platform := {
  linked : FS -> path -> option (list path);
  relink : FS -> path -> path -> bool -> option FS
}.

Inductive event :=
| Relinked (filename : path) (set_name : bool)
| Copied (src dst : path).

Record world := { w_fs : FS; w_log : list event }.

(** Result of a run: it returns, it raises, or the fuel is exhausted
    (the recursion is deeper than the fuel). *)
Inductive outcome :=
| Ok (w : world)
| Raised
| OutOfFuel.

(** [shutil.copy(link, libdir)]: copies the file to
    [os.path.join(libdir, basename(link))]; a missing source raises. *)
Definition copy (w : world) (src dir : path) : option world :=
  match w_fs w src with
  | None => None
  | Some c =>
      let dst := join dir (basename src) in
      Some {| w_fs := fs_update (w_fs w) dst (Some c);
              w_log := w_log w ++ [Copied src dst] |}
  end.

(** The first loop of [_relink_1]:
<<
    for link in linked:
        soname = os.path.basename(link)
        libdir_so = os.path.join(libdir, soname)
        if not os.path.exists(libdir_so):
            shutil.copy(link, libdir)
            to_link.append(libdir_so)
>> *)
Fixpoint copy_links (w : world) (libdir : path) (links : list path)
    (to_link : list path) : option (world * list path) :=
  match links with
  | [] => Some (w, to_link)
  | link :: rest =>
      let libdir_so := join libdir (basename link) in
      if exists_ (w_fs w) libdir_so then copy_links w libdir rest to_link
      else match copy w link libdir with
           | None => None
           | Some w' => copy_links w' libdir rest (to_link ++ [libdir_so])
           end
  end.

(** The second loop, [for libdir_so in to_link: k(libdir_so)], stopping at
    the first exception. *)
Fixpoint for_each (k : world -> path -> outcome) (w : world) (l : list path)
    : outcome :=
  match l with
  | [] => Ok w
  | x :: l' =>
      match k w x with
      | Ok w' => for_each k w' l'
      | r => r
      end
  end.

Variable plat : Platform.

(** [_relink_1(filename, libdir, *, set_name)].  The source recurses
    without a bound; [fuel] bounds the depth of that recursion. *)
Fixpoint relink_1 (fuel : nat) (w : world) (filename libdir : path)
    (set_name : bool) : outcome :=
  match fuel with
  | O => OutOfFuel
  | S fuel' =>
      match linked plat (w_fs w) filename with
      | None => Raised
      | Some lk =>
          match relink plat (w_fs w) filename libdir set_name with
          | None => Raised
          | Some fs1 =>
              let w1 := {| w_fs := fs1;
                           w_log := w_log w ++ [Relinked filename set_name] |} in
              match copy_links w1 libdir lk [] with
              | None => Raised
              | Some (w2, to_link) =>
                  for_each (fun w so => relink_1 fuel' w so libdir true) w2 to_link
              end
          end
      end
  end.

End Walk.

Arguments Ok {content} w.
Arguments Raised {content}.
Arguments OutOfFuel {content}.
Arguments w_fs {content} w _.
Arguments w_log {content} w.
Arguments linked {content} p _ _.
Arguments relink {content} p _ _ _ _.
Arguments fs_update {content} fs p v _.
Arguments exists_ {content} fs p.
Arguments copy {content} w src dir.
Arguments copy_links {content} w libdir links to_link.
Arguments for_each {content} k w l.
Arguments relink_1 {content} plat fuel w filename libdir set_name.

(** Every file on disk has its base name in [U]: the file system has
    finitely many base names. *)
Definition finite_names {content : Type} (U : list string) (fs : FS content) : Prop :=
  forall p, exists_ fs p = true -> In (basename p) U.

(** Number of base names of [U] with no file in [libdir] yet. *)
Definition absent {content : Type} (U : list string) (libdir : path)
    (fs : FS content) : nat :=
  length (filter (fun s => negb (exists_ fs (join libdir s))) U).

(** Destinations of the copies, and files relinked, recorded in a log. *)
Definition copied_files (l : list event) : list path :=
  flat_map (fun e => match e with Copied _ d => [d] | _ => [] end) l.

Definition relinked_files (l : list event) : list path :=
  flat_map (fun e => match e with Relinked f _ => [f] | _ => [] end) l.

Definition in_libdir (libdir p : path) : Prop := exists s, p = join libdir s.

(** The dependency graph of a root binary with content [c0]: the inspector
    reports [deps c] for a file of content [c]; [reach] holds of every path
    reached through one or more references, reading files in [fs0]. *)
Inductive reach {content : Type} (deps : content -> list path) (fs0 : FS content)
    (c0 : content) : path -> Prop :=
| reach_direct p : In p (deps c0) -> reach deps fs0 c0 p
| reach_step p c q :
    reach deps fs0 c0 p -> fs0 p = Some c -> In q (deps c) -> reach deps fs0 c0 q.

(** The vendored name [s] is closed in [fs]: it is the base name of a library
    of the graph, all of whose references have their base name in [libdir]. *)
Definition vendored_closed {content : Type} (deps : content -> list path)
    (fs0 : FS content) (c0 : content) (libdir : path) (fs : FS content)
    (s : string) : Prop :=
  exists p c, reach deps fs0 c0 p /\ basename p = s /\ fs0 p = Some c /\
    forall q, In q (deps c) -> exists_ fs (join libdir (basename q)) = true.

(** ** Text helpers

    Command output is decoded text; the model covers its ASCII characters.
    [is_ws] is [str.isspace] (the set [str.strip] removes and [\s]
    matches), [is_linebreak] the line boundaries of [str.splitlines]. *)

Definition is_ws (c : ascii) : bool :=
  let n := nat_of_ascii c in
  Nat.eqb n 32 || (Nat.leb 9 n && Nat.leb n 13) || (Nat.leb 28 n && Nat.leb n 31).

Definition is_linebreak (c : ascii) : bool :=
  let n := nat_of_ascii c in
  (Nat.leb 10 n && Nat.leb n 13) || (Nat.leb 28 n && Nat.leb n 30).

(** [str.splitlines()]: [\r\n] is one boundary, a trailing boundary does not
    start an empty line. *)
Fixpoint splitlines_go (s cur : string) : list string :=
  match s with
  | EmptyString => match cur with EmptyString => [] | _ => [cur] end
  | String c rest =>
      if Ascii.eqb c "013"%char then
        match rest with
        | String d rest' =>
            if Ascii.eqb d "010"%char then cur :: splitlines_go rest' ""
            else cur :: splitlines_go rest ""
        | EmptyString => [cur]
        end
      else if is_linebreak c then cur :: splitlines_go rest ""
      else splitlines_go rest (String.append cur (String c ""))
  end.

Definition splitlines (s : string) : list string := splitlines_go s "".

Fixpoint drop_ws (l : list ascii) : list ascii :=
  match l with
  | [] => []
  | c :: l' => if is_ws c then drop_ws l' else l
  end.

(** [str.strip()] *)
Definition strip (s : string) : string :=
  string_of_list_ascii
    (rev (drop_ws (rev (drop_ws (list_ascii_of_string s))))).

(** [sub in s] *)
Fixpoint contains (sub s : string) : bool :=
  prefix sub s || match s with EmptyString => false | String _ s' => contains sub s' end.

Fixpoint strip_prefix (p s : string) : option string :=
  match p, s with
  | EmptyString, _ => Some s
  | String c p', String d s' => if Ascii.eqb c d then strip_prefix p' s' else None
  | String _ _, EmptyString => None
  end.

Definition mem (x : string) (l : list string) : bool := existsb (String.eqb x) l.

(** ** The Linux link inspector *)

(** [_libc6_links()] on the output of [dpkg -L libc6]. *)
Definition libc6_links (dpkg_out : string) : list string :=
  filter (fun line => prefix "/lib/" line && contains ".so" line)
    (splitlines dpkg_out).

(** The longest prefix without a space, and the rest. *)
Fixpoint span_nonspace (s : string) : string * string :=
  match s with
  | EmptyString => (EmptyString, EmptyString)
  | String c r =>
      if Ascii.eqb c " " then (EmptyString, s)
      else let (a, b) := span_nonspace r in (String c a, b)
  end.

Definition ends_with_rparen (s : string) : bool :=
  match get (String.length s - 1) s with Some c => Ascii.eqb c ")" | None => false end.

(** [[^(]+\)$] *)
Definition paren_tail (s : string) : bool :=
  Nat.leb 2 (String.length s) && ends_with_rparen s && negb (contains "(" s).

(** [LDD_LINE.match(line)], returning the group [match[1]]:
    [^[^ ]+ => ([^ ]+) \([^(]+\)$].  Both [[^ ]+] runs are followed by a
    space, so each is the longest space-free run where it starts. *)
Definition ldd_match (line : string) : option string :=
  let (a, r1) := span_nonspace line in
  if String.eqb a "" then None else
  match strip_prefix " => " r1 with
  | None => None
  | Some r2 =>
      let (b, r3) := span_nonspace r2 in
      if String.eqb b "" then None else
      match strip_prefix " (" r3 with
      | None => None
      | Some r4 => if paren_tail r4 then Some b else None
      end
  end.

(** The lines [_linux_linked] skips without a match. *)
Definition ldd_skipped (line : string) : bool :=
  String.eqb line "statically linked" ||
  prefix "linux-vdso.so.1 " line || prefix "/lib/ld-linux-" line ||
  prefix "/lib64/ld-linux-" line.

(** The loop of [_linux_linked] over the lines of [ldd filename]; [None] is
    the [AssertionError] on an unexpected line. *)
Fixpoint linux_linked_lines (ignored : list string) (lines : list string)
    : option (list string) :=
  match lines with
  | [] => Some []
  | l :: ls =>
      let line := strip l in
      match ldd_match line with
      | Some m =>
          match linux_linked_lines ignored ls with
          | Some r => Some (if mem m ignored then r else m :: r)
          | None => None
          end
      | None =>
          if ldd_skipped line then linux_linked_lines ignored ls else None
      end
  end.

(** [_linux_linked(filename)], given the outputs of [dpkg -L libc6] and of
    [ldd filename]. *)
Definition linux_linked (dpkg_out ldd_out : string) : option (list string) :=
  linux_linked_lines (libc6_links dpkg_out) (splitlines ldd_out).

(** ** The Darwin link inspector *)

Fixpoint ws_prefix_len (s : string) : nat :=
  match s with
  | EmptyString => 0
  | String c s' => if is_ws c then S (ws_prefix_len s') else 0
  end.

Definition drop_last (s : string) : string := substring 0 (String.length s - 1) s.

(** [ \(compatibility .*, current .*\)$] matches all of [s]. *)
Definition otool_tail (s : string) : bool :=
  match strip_prefix " (compatibility " s with
  | Some r => ends_with_rparen r && contains ", current " (drop_last r)
  | None => false
  end.

(** The greedy group [(.+)] starting at the beginning of [rest]: the longest
    one first. *)
Fixpoint otool_group (rest : string) (g : nat) : option string :=
  match g with
  | 0 => None
  | S g' =>
      if otool_tail (substring g (String.length rest - g) rest)
      then Some (substring 0 g rest) else otool_group rest g'
  end.

(** The greedy [\s+]: the longest run of blanks first, backtracking to
    shorter ones. *)
Fixpoint otool_ws (line : string) (w : nat) : option string :=
  match w with
  | 0 => None
  | S w' =>
      let rest := substring w (String.length line - w) line in
      match otool_group rest (String.length rest) with
      | Some m => Some m
      | None => otool_ws line w'
      end
  end.

(** [OTOOL_L_LINE.match(line)], returning [match[1]]:
    [\s+(.+) \(compatibility .*, current .*\)$]. *)
Definition otool_match (line : string) : option string :=
  otool_ws line (ws_prefix_len line).

Fixpoint darwin_linked_lines (filename : string) (isfile : string -> bool)
    (lines : list string) : option (list string) :=
  match lines with
  | [] => Some []
  | line :: ls =>
      match otool_match line with
      | None => None
      | Some m =>
          match darwin_linked_lines filename isfile ls with
          | None => None
          | Some r =>
              Some (if String.eqb m filename then r
                    else if isfile m then m :: r else r)
          end
      end
  end.

(** [_darwin_linked(filename)], given the output of [otool -L filename] and
    [os.path.isfile]; [lines[0]] of an empty output is an [IndexError]. *)
Definition darwin_linked (filename out : string) (isfile : string -> bool)
    : option (list string) :=
  match splitlines out with
  | [] => None
  | header :: ls =>
      if String.eqb header (String.append filename ":") then darwin_linked_lines filename isfile ls
      else None
  end.

(** ** The relinkers

    A relinker is modelled by the list of commands it runs, each an argument
    vector; [subprocess.check_call] runs them in order.  Paths are absolute
    and normalised. *)

Definition render (p : path) : string := String.append "/" (String.concat "/" p).

Fixpoint common_len (a b : path) : nat :=
  match a, b with
  | x :: a', y :: b' => if String.eqb x y then S (common_len a' b') else 0
  | _, _ => 0
  end.

(** [os.path.relpath(target, start)] *)
Definition relpath (target start : path) : string :=
  let c := common_len target start in
  match app (repeat ".." (length start - c)) (skipn c target) with
  | [] => "."
  | parts => String.concat "/" parts
  end.

(** [_linux_relink(filename, libdir, set_name=...)] *)
Definition linux_relink_cmds (filename libdir : path) (set_name : bool)
    : list (list string) :=
  [["patchelf"; "--force-rpath"; "--set-rpath";
    String.append "$ORIGIN/" (relpath libdir (dirname filename)); render filename]].

(** [_darwin_relink(filename, libdir, set_name=...)], where [links] is what
    its call [_darwin_linked(filename)] returns. *)
Definition darwin_relink_cmds (filename libdir : path) (set_name : bool)
    (links : list path) : list (list string) :=
  app (if set_name
       then [["install_name_tool"; "-id"; String.append "@loader_path/" (basename filename);
              render filename]]
       else [])
   (app (map (fun link =>
                ["install_name_tool"; "-change"; render link;
                 String.append "@loader_path/"
                   (relpath (join libdir (basename link)) (dirname filename));
                 render filename]) links)
        [["codesign"; "--force"; "--sign"; "-"; render filename]]).

(** A command runs [tool] with first option [opt]. *)
Definition is_invocation (tool opt : string) (cmd : list string) : bool :=
  match cmd with
  | t :: o :: _ => String.eqb t tool && String.eqb o opt
  | _ => false
  end.

Definition invocations (tool opt : string) (cmds : list (list string)) : nat :=
  length (filter (is_invocation tool opt) cmds).

(** ** Sample tool outputs

    Outputs shaped like those of the repository's tests (an aarch64 [ldd],
    a [dpkg -L libc6] listing, [otool -L] on a Python extension). *)
Module Fixtures.

Definition NL : string := String "010" "".
Definition TAB : string := String "009" "".

(** The text of a list of lines, each ended by a newline. *)
Definition text (ls : list string) : string :=
  String.concat "" (map (fun l => String.append l NL) ls).

Definition tab_text (ls : list string) : string := text (map (String.append TAB) ls).

Definition dpkg_aarch64 : string :=
  text ["/."; "/etc/ld.so.conf.d/"; "/etc/ld.so.conf.d/aarch64-linux-gnu.conf";
        "/lib"; "/lib/aarch64-linux-gnu";
        "/lib/aarch64-linux-gnu/ld-linux-aarch64.so.1";
        "/lib/aarch64-linux-gnu/libc.so.6";
        "/lib/aarch64-linux-gnu/libm.so.6";
        "/usr/lib/aarch64-linux-gnu/gconv/BIG5.so";
        "/usr/share/doc/libc6/NEWS.gz";
        "/lib/ld-linux-aarch64.so.1"].

Definition ldd_aarch64 : string :=
  tab_text
    ["linux-vdso.so.1 (0x0000ffff9f326000)";
     "libm.so.6 => /lib/aarch64-linux-gnu/libm.so.6 (0x0000ffff9ec70000)";
     "libexpat.so.1 => /lib/aarch64-linux-gnu/libexpat.so.1 (0x0000ffff9ec30000)";
     "libz.so.1 => /lib/aarch64-linux-gnu/libz.so.1 (0x0000ffff9ec00000)";
     "libc.so.6 => /lib/aarch64-linux-gnu/libc.so.6 (0x0000ffff9ea50000)";
     "/lib/ld-linux-aarch64.so.1 (0x0000ffff9f2ed000)"].

(** An x86_64 [libc6] listing: the loader is shipped under [/lib64]. *)
Definition dpkg_amd64 : string :=
  text ["/lib/x86_64-linux-gnu/libc.so.6";
        "/lib/x86_64-linux-gnu/ld-linux-x86-64.so.2";
        "/lib64/ld-linux-x86-64.so.2"].

(** [ldd] on a library that names the loader among its needed libraries
    prints it in arrow form. *)
Definition ldd_loader_arrow : string :=
  tab_text
    ["linux-vdso.so.1 (0x00007ffd2b5f3000)";
     "libc.so.6 => /lib/x86_64-linux-gnu/libc.so.6 (0x00007f41c2a00000)";
     "ld-linux-x86-64.so.2 => /lib64/ld-linux-x86-64.so.2 (0x00007f41c2c6f000)"].

Definition ldd_not_found : string :=
  tab_text ["linux-vdso.so.1 (0x00007ffd2b5f3000)";
            "libfoo.so.1 => not found";
            "libc.so.6 => /lib/x86_64-linux-gnu/libc.so.6 (0x00007f41c2a00000)"].

Definition ldd_garbage : string :=
  tab_text ["libc.so.6 => /lib/x86_64-linux-gnu/libc.so.6 (0x00007f41c2a00000)";
            "some unexpected output"].

Definition so : string := "/t/lib/python3.8/lib-dynload/_ssl.cpython-38-darwin.so".
Definition libssl : string := "/t/openssl@1.1/lib/libssl.1.1.dylib".
Definition libcrypto : string := "/t/openssl@1.1/lib/libcrypto.1.1.dylib".

Definition otool_lines (header : string) : string :=
  text [String.append header ":";
        String.append TAB (String.append libssl
          " (compatibility version 1.1.0, current version 1.1.0)");
        String.append TAB (String.append libcrypto
          " (compatibility version 1.1.0, current version 1.1.0)");
        String.append TAB
          "/usr/lib/libSystem.B.dylib (compatibility version 1.0.0, current version 1311.100.3)"].

(** The files on disk: the libSystem of the output is not one of them. *)
Definition isfile (p : string) : bool :=
  String.eqb p so || String.eqb p libssl || String.eqb p libcrypto.

End Fixtures.

(** ** A concrete platform for experiments

    A file's content is the list of its references; like [_darwin_linked],
    the inspector keeps those that are files on disk.
    Relinking rewrites every reference to the copy of the same base name in
    the library directory (what an rpath pointing at [libdir] does to
    [ldd]'s answers). *)
Module Toy.

Definition content := list path.

Definition toy_linked (fs : FS content) (f : path) : option (list path) :=
  match fs f with
  | None => None
  | Some c => Some (filter (fun l => exists_ fs l) c)
  end.

Definition toy_relink (fs : FS content) (f libdir : path) (_ : bool)
    : option (FS content) :=
  match fs f with
  | None => None
  | Some c => Some (fs_update fs f
                      (Some (map (fun l => join libdir (basename l)) c)))
  end.

Definition plat : Platform content := {| linked := toy_linked; relink := toy_relink |}.

Definition mk (files : list (path * content)) : FS content :=
  fun p => match find (fun e => path_eqb (fst e) p) files with
           | Some (_, c) => Some c
           | None => None
           end.


Definition toy_names (files : list (path * content)) : list string :=
  map (fun e => basename (fst e)) files.

Definition main : path := ["bin"; "main"].
Definition libdir : path := ["prefix"; "lib"].

(** [main] needs [libA] and [libB]; [libA] needs [libC], which needs
    [libA] back (a cycle). *)
Definition tree_files : list (path * content) :=
  [(main, [["opt"; "libA.so"]; ["opt"; "libB.so"]]);
   (["opt"; "libA.so"], [["opt"; "libC.so"]]);
   (["opt"; "libB.so"], []);
   (["opt"; "libC.so"], [["opt"; "libA.so"]])].

(** A chain [main -> libA -> libB -> libC]. *)
Definition chain_files : list (path * content) :=
  [(main, [["opt"; "libA.so"]]);
   (["opt"; "libA.so"], [["opt"; "libB.so"]]);
   (["opt"; "libB.so"], [["opt"; "libC.so"]]);
   (["opt"; "libC.so"], [])].

Definition start (files : list (path * content)) : world content :=
  {| w_fs := mk files; w_log := [] |}.

Definition walk_order (r : outcome content) : option (list path) :=
  match r with Ok w => Some (relinked_files (w_log w)) | _ => None end.

(** A second toy platform whose inspector reports every reference, resolved
    or not (as [ldd] reports resolved paths without an on-disk check). *)
Definition toy_ldd_linked (fs : FS content) (f : path) : option (list path) := fs f.

Definition plat_ldd : Platform content :=
  {| linked := toy_ldd_linked; relink := toy_relink |}.

(** The world a run ends in ([start []] when it does not return). *)
Definition final (r : outcome content) : world content :=
  match r with Ok w => w | _ => start [] end.

(** [libdir] already holds a [libA.so] that differs from [/opt/libA.so]. *)
Definition stale_libA : content := [["stale"]].

Definition prevendored_files : list (path * content) :=
  (libdir ++ ["libA.so"], stale_libA) :: tree_files.

(** Two libraries named [libX.so] in different directories; only the
    second needs [libY.so]. *)
Definition collision_files : list (path * content) :=
  [(main, [["a"; "libX.so"]; ["b"; "libX.so"]]);
   (["a"; "libX.so"], []);
   (["b"; "libX.so"], [["c"; "libY.so"]]);
   (["c"; "libY.so"], [])].

End Toy.

(** ** Versions: [Version.s], [Version.py_minor], [Version.parse]

    Integers are [Z]; [str(int)] and [int(str)] are modelled on their ASCII
    text. *)

(** [s.split(c)] with a one-character separator. *)
Fixpoint split_on (c : ascii) (s : string) : list string :=
  match s with
  | EmptyString => [""]
  | String d s' =>
      let r := split_on c s' in
      if Ascii.eqb d c then "" :: r
      else match r with
           | h :: t => String d h :: t
           | [] => [String d ""]
           end
  end.

(** The value of an ASCII decimal digit. *)
Definition digit_val (c : ascii) : option Z :=
  let n := nat_of_ascii c in
  if (Nat.leb 48 n && Nat.leb n 57)%bool then Some (Z.of_nat (n - 48)) else None.

(** The digits of [int(s)]: at least one digit, single underscores only
    between digits ([need_digit]: a digit must come next). *)
Fixpoint digits_go (s : string) (acc : Z) (need_digit : bool) : option Z :=
  match s with
  | EmptyString => if need_digit then None else Some acc
  | String c s' =>
      match digit_val c with
      | Some d => digits_go s' (acc * 10 + d)%Z false
      | None =>
          if (Ascii.eqb c "_" && negb need_digit)%bool then digits_go s' acc true
          else None
      end
  end.

(** [int(s)]: surrounding white space, an optional sign, then the digits;
    [None] is the [ValueError]. *)
Definition int_of_str (s : string) : option Z :=
  match strip s with
  | String "-" r => option_map Z.opp (digits_go r 0 true)
  | String "+" r => digits_go r 0 true
  | t => digits_go t 0 true
  end.

(** The decimal digits of [n >= 0], most significant first, in front of
    [acc]; [fuel] bounds the number of digits. *)
Fixpoint dec_digits (fuel : nat) (n : Z) (acc : string) : string :=
  match fuel with
  | O => acc
  | S f =>
      let acc' := String (ascii_of_nat (48 + Z.to_nat (n mod 10))) acc in
      if (n <? 10)%Z then acc' else dec_digits f (n / 10) acc'
  end.

(** [str(z)] *)
Definition z_str (z : Z) : string :=
  if (z <? 0)%Z
  then String "-" (dec_digits (S (Z.to_nat (Z.log2 (- z)))) (- z) "")
  else dec_digits (S (Z.to_nat (Z.log2 z))) z "".

Record Version := mkVersion { major : Z; minor : Z; patch : Z }.

(** [Version.py_minor] *)
Definition py_minor (v : Version) : string :=
  String.append "python" (String.append (z_str (major v))
    (String.append "." (z_str (minor v)))).

(** [Version.s] *)
Definition version_s (v : Version) : string :=
  String.append (z_str (major v)) (String.append "."
    (String.append (z_str (minor v)) (String.append "." (z_str (patch v))))).

(** [Version.parse(s)]: [None] is the [ValueError] of the unpacking or of an
    [int] call. *)
Definition version_parse (s : string) : option Version :=
  match split_on "." s with
  | [major_s; minor_s; patch_s] =>
      match int_of_str major_s, int_of_str minor_s, int_of_str patch_s with
      | Some a, Some b, Some c => Some (mkVersion a b c)
      | _, _, _ => None
      end
  | _ => None
  end.

(** ** Archive names *)

(** [s.replace(a, b)] for single characters. *)
Fixpoint replace_char (a b : ascii) (s : string) : string :=
  match s with
  | EmptyString => EmptyString
  | String c s' => String (if Ascii.eqb c a then b else c) (replace_char a b s')
  end.

(** [_linux_archive_name(version)], where [libc] is the version string of
    [platform.libc_ver()] and [machine] is [platform.machine()]. *)
Definition linux_archive_name (libc machine : string) (v : Version) : string :=
  String.append "python-" (String.append (version_s v)
    (String.append "-manylinux_" (String.append (replace_char "." "_" libc)
      (String.append "_" (String.append machine ".tgz"))))).

(** [_darwin_archive_name(version)], where [macos] is the release string of
    [platform.mac_ver()]; [None] is the [ValueError] of the unpacking or of
    [int(major)]. *)
Definition darwin_archive_name (macos machine : string) (v : Version)
    : option string :=
  match split_on "." macos with
  | major_s :: minor_s :: _ =>
      match int_of_str major_s with
      | None => None
      | Some m =>
          let minor_s' := if (11 <=? m)%Z then "0" else minor_s in
          Some (String.append "python-" (String.append (version_s v)
                 (String.append "-macosx_" (String.append major_s
                   (String.append "_" (String.append minor_s'
                     (String.append "_" (String.append machine ".tgz"))))))))
      end
  | _ => None
  end.

(** ** The build environment

    A [MutableMapping[str, str]] is modelled by its lookup function. *)

Definition environ := string -> option string.

(** [environ.pop(k, None)] *)
Definition env_pop (e : environ) (k : string) : environ :=
  fun x => if String.eqb x k then None else e x.

(** [environ[k] = v] *)
Definition env_set (e : environ) (k v : string) : environ :=
  fun x => if String.eqb x k then Some v else e x.

(** [_sanitize_environ(environ)] *)
Definition sanitize_environ (e : environ) : environ :=
  let e := fold_left env_pop ["CFLAGS"; "CPPFLAGS"; "LDFLAGS"; "PKG_CONFIG_PATH"] e in
  let e := env_set e "HOMEBREW_NO_AUTO_UPDATE" "1" in
  env_set e "PATH" "/usr/bin:/bin:/usr/sbin:/sbin".

(** The last character of a string. *)
Fixpoint last_char (s : string) : option ascii :=
  match s with
  | EmptyString => None
  | String c EmptyString => Some c
  | String _ s' => last_char s'
  end.

(** [os.path.join(a, b)] (posixpath) *)
Definition ospath_join1 (a b : string) : string :=
  if prefix "/" b then b
  else match a, last_char a with
       | EmptyString, _ => b
       | _, Some "/"%char => String.append a b
       | _, _ => String.append a (String "/" b)
       end.

(** [os.path.join(a, *parts)] *)
Definition ospath_join (a : string) (parts : list string) : string :=
  fold_left ospath_join1 parts a.

(** [_brew_paths(...)] on the output of [brew --prefix pkgs...] *)
Definition brew_paths (out : string) : list string := splitlines out.

(** [_darwin_configure_args()] on the output of [brew --prefix openssl@1.1];
    [None] is the [ValueError] of [ssl_path, = ...]. *)
Definition darwin_configure_args (out : string) : option (list string) :=
  match brew_paths out with
  | [ssl_path] => Some [String.append "--with-openssl=" ssl_path]
  | _ => None
  end.

(** [_darwin_modify_env(environ)] on the output of
    [brew --prefix ncurses sqlite xz]. *)
Definition darwin_modify_env (out : string) (e : environ) : environ :=
  let paths parts := map (fun path => ospath_join path parts) (brew_paths out) in
  let e := env_set e "CPPFLAGS"
             (String.concat " " (map (String.append "-I") (paths ["include"]))) in
  let e := env_set e "LDFLAGS"
             (String.concat " " (map (String.append "-L") (paths ["lib"]))) in
  env_set e "PKG_CONFIG_PATH" (String.concat ":" (paths ["lib"; "pkgconfig"])).

(** The variables [main] sets through [_sanitize_environ] and the platform's
    [modify_env]. *)
Definition managed_keys : list string :=
  ["CFLAGS"; "CPPFLAGS"; "LDFLAGS"; "PKG_CONFIG_PATH";
   "HOMEBREW_NO_AUTO_UPDATE"; "PATH"].

(** ** Download and extraction *)

Definition CHUNK : nat := 4096.

(** The loop of [_download] over a file whose unread part is [rest]:
<<
        bts = f.read(4096)
        while bts:
            checksum.update(bts)
            bts = f.read(4096)
>>
    returning the chunks passed to [update]; [fuel] bounds the iterations. *)
Fixpoint read_loop (fuel : nat) (bts rest : list Byte.byte) : option (list (list Byte.byte)) :=
  match fuel with
  | O => None
  | S f =>
      match bts with
      | [] => Some []
      | _ :: _ => option_map (cons bts) (read_loop f (firstn CHUNK rest) (skipn CHUNK rest))
      end
  end.

Definition download_chunks (data : list Byte.byte) : option (list (list Byte.byte)) :=
  read_loop (S (length data)) (firstn CHUNK data) (skipn CHUNK data).

(** [_download(py, target)] once the response [data] has been written to
    [target]: [hexdigest] is [sha256(...).hexdigest()], and the successive
    [update] calls hash the concatenation of the chunks.  [None] is the
    [SystemExit]. *)
Definition download (hexdigest : list Byte.byte -> string) (data : list Byte.byte)
    (sha256 : string) : option unit :=
  match download_chunks data with
  | None => None
  | Some chunks =>
      if String.eqb (hexdigest (concat chunks)) sha256 then Some tt else None
  end.

(** [s.partition(c)[2]] *)
Fixpoint partition_after (c : ascii) (s : string) : string :=
  match s with
  | EmptyString => EmptyString
  | String d s' => if Ascii.eqb d c then s' else partition_after c s'
  end.

(** The new [member.path] of [_extract_strip_1]. *)
Definition strip_1 (member_path : string) : string := partition_after "/" member_path.

(** ** The archive *)

(** [os.path.basename] of a string path: what follows the last ['/']. *)
Definition str_basename (p : string) : string := last (split_on "/" p) "".

(** Splits a list at its last ['.']: the characters before it, and the ['.']
    with what follows. *)
Fixpoint split_last_dot (l : list ascii) : option (list ascii * list ascii) :=
  match l with
  | [] => None
  | c :: l' =>
      match split_last_dot l' with
      | Some (a, b) => Some (c :: a, b)
      | None => if Ascii.eqb c "." then Some ([], l) else None
      end
  end.

(** [os.path.splitext] of a name without ['/']: the extension starts at the
    last ['.'], unless only dots precede it. *)
Definition splitext (p : string) : string * string :=
  match split_last_dot (list_ascii_of_string p) with
  | Some (root, ext) =>
      if forallb (Ascii.eqb ".") root then (p, "")
      else (string_of_list_ascii root, string_of_list_ascii ext)
  | None => (p, "")
  end.

(** One [(root, dirs, filenames)] triple of [os.walk(src)]. *)
Definition walk_triple : Type := (path * list string * list string)%type.

(** The list [arcs] of [_archive(src, dest)] before sorting: [name] is
    [os.path.splitext(os.path.basename(dest))[0]]. *)
Definition archive_arcs (name : string) (src : path) (walk : list walk_triple)
    : list (string * string) :=
  (name, render src) ::
  flat_map (fun '(root, dirs, filenames) =>
              map (fun filename =>
                     let abspath := join root filename in
                     (ospath_join1 name (relpath abspath src), render abspath))
                  (app dirs filenames))
           walk.

(** Tuple comparison of [(arcname, abspath)] pairs, strings by code point. *)
Definition arc_leb (a b : string * string) : bool :=
  match String.compare (fst a) (fst b) with
  | Lt => true
  | Gt => false
  | Eq => match String.compare (snd a) (snd b) with Gt => false | _ => true end
  end.

Fixpoint insert_arc (a : string * string) (l : list (string * string))
    : list (string * string) :=
  match l with
  | [] => [a]
  | b :: l' => if arc_leb a b then a :: l else b :: insert_arc a l'
  end.

(** [arcs.sort()]: the sorted permutation (by insertion). *)
Fixpoint sort_arcs (l : list (string * string)) : list (string * string) :=
  match l with
  | [] => []
  | a :: l' => insert_arc a (sort_arcs l')
  end.

(** The [(arcname, abspath)] pairs [_archive] adds to the tar file, in order. *)
Definition archive_members (name : string) (src : path) (walk : list walk_triple)
    : list (string * string) :=
  sort_arcs (archive_arcs name src walk).

(** ** [_relink]

    [dynload] is [os.listdir(dyn_dir)], read after the interpreter has been
    relinked. *)
Definition relink_all {content : Type} (plat : Platform content) (fuel : nat)
    (w : world content) (prefix : path) (v : Version) (dynload : list string)
    : outcome content :=
  let libdir := join prefix "lib" in
  match relink_1 plat fuel w (join (join prefix "bin") (py_minor v)) libdir false with
  | Ok w1 =>
      let dyn_dir := join (join libdir (py_minor v)) "lib-dynload" in
      for_each (fun w filename => relink_1 plat fuel w filename libdir false)
        w1 (map (join dyn_dir) dynload)
  | r => r
  end.

(** ** Helpers for the properties below *)

(** [c not in s] for a string [s]. *)
Definition lacks (c : ascii) (s : string) : bool :=
  forallb (fun d => negb (Ascii.eqb d c)) (list_ascii_of_string s).

(** A character [int] accepts as a decimal digit. *)
Definition is_digit (c : ascii) : bool :=
  match digit_val c with Some _ => true | None => false end.

(** [s.count(c)] for a single character [c]. *)
Definition str_count (c : ascii) (s : string) : nat :=
  length (filter (fun d => Ascii.eqb d c) (list_ascii_of_string s)).

(** A string without line boundaries: [str.splitlines] leaves it whole. *)
Definition no_linebreak (s : string) : bool :=
  forallb (fun c => negb (is_linebreak c)) (list_ascii_of_string s).

(** The paths [os.walk] lists: [os.path.join(root, filename)] for every
    entry of [dirs + filenames]. *)
Definition walk_entries (walk : list walk_triple) : list path :=
  flat_map (fun '(root, dirs, filenames) => map (join root) (app dirs filenames)) walk.

(** The [(arcname, abspath)] pair [_archive] builds for one path. *)
Definition arc_of (name : string) (src abspath : path) : string * string :=
  (ospath_join1 name (relpath abspath src), render abspath).

(** The three-way comparison behind [arc_leb]. *)
Definition arc_cmp (a b : string * string) : comparison :=
  match String.compare (fst a) (fst b) with
  | Eq => String.compare (snd a) (snd b)
  | c => c
  end.

Definition arc_le (a b : string * string) : Prop := arc_leb a b = true.

(** A directory entry name: non-empty and without a separator. *)
Definition proper_name (s : string) : bool := (negb (String.eqb s "") && lacks "/" s)%bool.

(** A path component that is a plain name (not [.] or [..]). *)
Definition proper_component (s : string) : bool :=
  (negb (String.eqb s "") && negb (String.eqb s ".") && negb (String.eqb s "..") &&
   lacks "/" s)%bool.

(** [os.path.normpath(os.path.join(d, rel))] on the components of [rel],
    from an absolute [d] already in normal form; this is also how the loader
    resolves [$ORIGIN/rel] and [@loader_path/rel] against the directory [d]
    of the loading file. *)
Fixpoint normpath_go (acc : path) (parts : list string) : path :=
  match parts with
  | [] => acc
  | p :: ps =>
      if (String.eqb p "" || String.eqb p ".")%bool then normpath_go acc ps
      else if String.eqb p ".." then normpath_go (removelast acc) ps
      else normpath_go (app acc [p]) ps
  end.

Definition resolve (dir : path) (rel : string) : path := normpath_go dir (split_on "/" rel).

(** The glob ['*' ++ suf] of [find -name] on a base name. *)
Fixpoint ends_with (suf s : string) : bool :=
  (String.eqb s suf ||
   match s with EmptyString => false | String _ s' => ends_with suf s' end)%bool.

(** [q] is [p] or lies below [p]. *)
Definition is_prefix_path (p q : path) : bool := path_eqb (firstn (length p) q) p.

(** [shutil.rmtree(p)]: removes [p] and everything below it; it raises
    ([None]) when there is no entry at [p].  The file system does not tell
    directories from files, so the raise of [rmtree] on a path that is not a
    directory is not modelled: the properties of [_clean] below are stated
    for runs that succeed. *)
Definition rmtree {content : Type} (fs : FS content) (p : path) : option (FS content) :=
  if exists_ fs p then Some (fun q => if is_prefix_path p q then None else fs q) else None.

(** The [shutil.rmtree] calls of a loop, in order; the first that raises
    ends it. *)
Fixpoint rmtree_all {content : Type} (fs : FS content) (dirs : list path)
    : option (FS content) :=
  match dirs with
  | [] => Some fs
  | d :: ds => match rmtree fs d with None => None | Some fs' => rmtree_all fs' ds end
  end.

(** [find prefix -name '*.pyc' -delete], for a run of [find] that succeeds
    (the raise of [check_call] on a non-zero exit is not modelled). *)
Definition find_delete_pyc {content : Type} (fs : FS content) (prefix : path) : FS content :=
  fun q => if (is_prefix_path prefix q && ends_with ".pyc" (basename q))%bool then None else fs q.


(** ** [_clean]

    The package directories [_clean] removes from [lib/python3.x]. *)
Definition clean_mod_paths : list (list string) :=
  [["idlelib"]; ["tkinter"]; ["test"]; ["ctypes"; "test"]; ["distutils"; "tests"];
   ["lib2to3"; "tests"]; ["unittest"; "test"]; ["sqlite3"; "test"]].

(** [_clean(prefix, version)]. *)
Definition clean {content : Type} (fs : FS content) (prefix : path) (v : Version)
    : option (FS content) :=
  match rmtree_all fs (map (app (app prefix ["lib"; py_minor v])) clean_mod_paths) with
  | None => None
  | Some fs' => Some (find_delete_pyc fs' prefix)
  end.

(** ** [_linux_setup_deps]

    [_linux_setup_deps] either returns or replaces the process with
    [os.execvp(cmd[0], cmd)]. *)
Inductive setup_result := SetupReturn (rc : Z) | Exec (argv : list string).

(** [_docker_run()]: [has_podman] is [shutil.which('podman')] being set. *)
Definition docker_run (has_podman : bool) (uid gid : Z) : list string :=
  if has_podman then ["podman"; "run"]
  else ["docker"; "run"; "--user"; String.append (z_str uid) (String.append ":" (z_str gid))].

(** [IMAGE_NAME] for [platform.machine()]. *)
Definition IMAGE_NAME (machine : string) : string :=
  String.append "ghcr.io/getsentry/prebuilt-pythons-manylinux-" (String.append machine "-ci").

(** [_linux_setup_deps(version)]: [in_container] is
    [os.environ.get('BUILD_BINARY_IN_CONTAINER')], [dist_abspath] is
    [os.path.abspath('dist')], [file_abspath] and [file] are
    [os.path.abspath(__file__)] and [__file__]. *)
Definition linux_setup_deps (in_container : option string) (has_podman : bool) (uid gid : Z)
    (dist_abspath file_abspath file machine : string) (v : Version) : setup_result :=
  let cmd :=
    app (docker_run has_podman uid gid)
      ["--pull=always"; "--rm";
       "--volume"; String.append dist_abspath ":/dist:rw";
       "--volume"; String.append file_abspath (String.append ":/" (str_basename file));
       "--workdir"; "/";
       IMAGE_NAME machine;
       "python3"; "-um"; "build_binary";
       version_s v] in
  match in_container with
  | Some s => if String.eqb s "" then Exec cmd else SetupReturn 0
  | None => Exec cmd
  end.

(** [main] needs [/a/libX.so] and [/b/libX.so]; only [/a/libX.so] has a
    reference of its own, to [/c/libY.so]. *)
Definition shadowed_files : list (path * Toy.content) :=
  [(Toy.main, [["a"; "libX.so"]; ["b"; "libX.so"]]);
   (["a"; "libX.so"], [["c"; "libY.so"]]);
   (["b"; "libX.so"], []);
   (["c"; "libY.so"], [])].

(** Python 3.8.13. *)
Definition v38 : Version := mkVersion 3 8 13.

(** A toy install tree: the interpreter [p/bin/python3.8] needs [libA], the
    extension module [_ssl.so] in [lib-dynload] needs [libB], which needs
    [libA]. *)
Definition toy_python_files : list (path * Toy.content) :=
  [(["p"; "bin"; "python3.8"], [["opt"; "libA.so"]]);
   (["p"; "lib"; "python3.8"; "lib-dynload"; "_ssl.so"], [["opt"; "libB.so"]]);
   (["opt"; "libA.so"], []);
   (["opt"; "libB.so"], [["opt"; "libA.so"]])].

(** * Lemmas *)

Lemma path_eqb_true (p q : path) : path_eqb p q = true <-> p = q.
Proof. unfold path_eqb; destruct (list_eq_dec string_dec p q); split; congruence. Qed.

Lemma path_eqb_refl (p : path) : path_eqb p p = true.
Proof. apply path_eqb_true; reflexivity. Qed.

Lemma path_eqb_false (p q : path) : p <> q -> path_eqb p q = false.
Proof. unfold path_eqb; destruct (list_eq_dec string_dec p q); congruence. Qed.

(** ** Generic facts about the walk *)

Section WalkFacts.

Context {content : Type}.

Lemma for_each_inv (P : world content -> Prop) k l w w' :
  P w ->
  (forall w0 x w1, In x l -> P w0 -> k w0 x = Ok w1 -> P w1) ->
  for_each k w l = Ok w' -> P w'.
Proof.
  revert w; induction l as [|x l IH]; intros w Hw Hk Hrun; simpl in Hrun.
  - inversion Hrun; subst; exact Hw.
  - destruct (k w x) as [w1| |] eqn:E; try discriminate.
    apply (IH w1); [eapply Hk; eauto; now left | | exact Hrun].
    intros; eapply Hk; eauto; now right.
Qed.

Lemma for_each_fuel (P : world content -> Prop) k l w :
  P w ->
  (forall w0 x w1, In x l -> P w0 -> k w0 x = Ok w1 -> P w1) ->
  (forall w0 x, In x l -> P w0 -> k w0 x <> OutOfFuel) ->
  for_each k w l <> OutOfFuel.
Proof.
  revert w; induction l as [|x l IH]; intros w Hw Hk Hf; simpl; [discriminate|].
  destruct (k w x) as [w1| |] eqn:E.
  - apply IH; [eapply Hk; eauto; now left | | ].
    + intros; eapply Hk; eauto; now right.
    + intros; eapply Hf; eauto; now right.
  - discriminate.
  - exfalso; eapply Hf; eauto; now left.
Qed.

Lemma filter_length_le (f g : string -> bool) (U : list string) :
  (forall s, g s = true -> f s = true) ->
  length (filter g U) <= length (filter f U).
Proof.
  intros H; induction U as [|s U IH]; simpl; [lia|].
  destruct (g s) eqn:Eg; [rewrite (H s Eg); simpl; lia|].
  destruct (f s); simpl; lia.
Qed.

Lemma filter_length_lt (f g : string -> bool) (U : list string) s0 :
  (forall s, g s = true -> f s = true) ->
  In s0 U -> f s0 = true -> g s0 = false ->
  length (filter g U) < length (filter f U).
Proof.
  intros H; induction U as [|s U IH]; simpl; [tauto|].
  intros [<-|Hin] Hf Hg.
  - rewrite Hg, Hf; simpl.
    pose proof (filter_length_le f g U H); lia.
  - specialize (IH Hin Hf Hg).
    destruct (g s) eqn:Eg; [rewrite (H s Eg); simpl; lia|].
    destruct (f s); simpl; lia.
Qed.

End WalkFacts.

(** ** Termination of the walk

    Hypotheses on the platform: the inspector only reports files that exist
    (as [_darwin_linked] does with [os.path.isfile], and as [ldd] does with
    resolved paths), and a relink neither creates nor deletes files.  The
    initial file system has finitely many base names, listed in [U]. *)
Section Termination.

Context {content : Type} (plat : Platform content).

Hypothesis linked_exists : forall fs f lk,
  linked plat fs f = Some lk -> forall l, In l lk -> exists_ fs l = true.

Hypothesis relink_keeps_files : forall fs f libdir b fs',
  relink plat fs f libdir b = Some fs' -> forall p, exists_ fs' p = exists_ fs p.

Variable U : list string.

Lemma basename_join d s : basename (join d s) = s.
Proof. unfold basename, join; apply last_last. Qed.

Lemma absent_mono libdir (fs fs' : FS content) :
  (forall p, exists_ fs p = true -> exists_ fs' p = true) ->
  absent U libdir fs' <= absent U libdir fs.
Proof.
  intros H; unfold absent; apply filter_length_le.
  intros s; destruct (exists_ fs (join libdir s)) eqn:E; simpl; auto.
  rewrite (H _ E); discriminate.
Qed.

Lemma absent_le_U libdir (fs : FS content) : absent U libdir fs <= length U.
Proof.
  unfold absent; induction U as [|s U' IH]; simpl; [lia|].
  destruct (negb _); simpl; lia.
Qed.

Lemma copy_exists (w w' : world content) src dir :
  copy w src dir = Some w' ->
  (forall p, exists_ (w_fs w) p = true -> exists_ (w_fs w') p = true) /\
  exists_ (w_fs w') (join dir (basename src)) = true /\
  (forall p, exists_ (w_fs w') p = true ->
             exists_ (w_fs w) p = true \/ p = join dir (basename src)) /\
  exists_ (w_fs w) src = true.
Proof.
  unfold copy, exists_; destruct (w_fs w src) as [c|]; [|discriminate].
  intros H; inversion H; subst; clear H; simpl; unfold fs_update.
  split; [|split; [|split]]; auto.
  - intros p; destruct (path_eqb p (join dir (basename src))); auto.
  - rewrite path_eqb_refl; reflexivity.
  - intros p; destruct (path_eqb p (join dir (basename src))) eqn:E; auto.
    right; apply path_eqb_true; exact E.
Qed.

Lemma copy_links_absent (w w2 : world content) libdir lk acc tl :
  finite_names U (w_fs w) ->
  (forall l, In l lk -> exists_ (w_fs w) l = true) ->
  copy_links w libdir lk acc = Some (w2, tl) ->
  (forall p, exists_ (w_fs w) p = true -> exists_ (w_fs w2) p = true) /\
  finite_names U (w_fs w2) /\
  exists nw, tl = acc ++ nw /\
    absent U libdir (w_fs w2) + length nw <= absent U libdir (w_fs w).
Proof.
  revert w acc; induction lk as [|l lk IH]; intros w acc Hfin HU H; simpl in H.
  - inversion H; subst; split; [auto|split; [auto|]].
    exists []; rewrite app_nil_r; split; [reflexivity|simpl; lia].
  - destruct (exists_ (w_fs w) (join libdir (basename l))) eqn:Ex.
    + apply IH in H; auto. intros; apply HU; now right.
    + destruct (copy w l libdir) as [w'|] eqn:Ec; [|discriminate].
      destruct (copy_exists _ _ _ _ Ec) as [Hm' [Hnew [Hback _]]].
      assert (Hfin' : finite_names U (w_fs w')).
      { intros p Hp; destruct (Hback p Hp) as [Hp' | ->]; [auto|].
        rewrite basename_join; apply Hfin, HU; now left. }
      apply IH in H; auto; [|intros; apply Hm', HU; now right].
      destruct H as [Hm [Hfin2 [nw [-> Hlt]]]].
      split; [auto|split; [auto|]].
      exists (join libdir (basename l) :: nw); split; [rewrite <- app_assoc; reflexivity|].
      assert (absent U libdir (w_fs w') < absent U libdir (w_fs w)).
      { unfold absent; apply filter_length_lt with (s0 := basename l).
        - intros s; destruct (exists_ (w_fs w) (join libdir s)) eqn:E; simpl; auto.
          rewrite (Hm' _ E); discriminate.
        - apply Hfin, HU; now left.
        - rewrite Ex; reflexivity.
        - rewrite Hnew; reflexivity. }
      simpl; lia.
Qed.

Lemma relink_1_mono fuel w f libdir b w' :
  relink_1 plat fuel w f libdir b = Ok w' ->
  finite_names U (w_fs w) ->
  (forall p, exists_ (w_fs w) p = true -> exists_ (w_fs w') p = true) /\
  finite_names U (w_fs w').
Proof.
  revert w f b w'; induction fuel as [|n IH]; intros w f b w' H Hfin; simpl in H;
    [discriminate|].
  destruct (linked plat (w_fs w) f) as [lk|] eqn:El; [|discriminate].
  destruct (relink plat (w_fs w) f libdir b) as [fs1|] eqn:Er; [|discriminate].
  destruct (copy_links _ libdir lk []) as [[w2 tl]|] eqn:Ec; [|discriminate].
  pose proof (relink_keeps_files _ _ _ _ _ Er) as Hk.
  assert (Hfin1 : finite_names U fs1).
  { intros p Hp; apply Hfin; rewrite Hk in Hp; exact Hp. }
  assert (Hl1 : forall l, In l lk -> exists_ fs1 l = true).
  { intros l Hl; rewrite Hk; exact (linked_exists _ _ _ El l Hl). }
  pose proof Ec as Hc; eapply copy_links_absent in Hc; [|exact Hfin1|exact Hl1].
  destruct Hc as [Hm [Hfin2 _]].
  refine (for_each_inv (fun w0 => (forall p, exists_ (w_fs w) p = true ->
                                   exists_ (w_fs w0) p = true) /\
                                  finite_names U (w_fs w0)) _ _ _ _ _ _ H).
  - split; [|exact Hfin2].
    intros p Hp; apply Hm; cbn [w_fs]; rewrite Hk; exact Hp.
  - intros w0 x w1 _ [H0 Hf0] Hrun.
    destruct (IH _ _ _ _ Hrun Hf0) as [H1 Hf1]; split; auto.
Qed.

(** The recursion never needs more depth than one plus the number of base
    names still absent from [libdir]. *)
Lemma relink_1_enough_fuel fuel w f libdir b :
  finite_names U (w_fs w) ->
  absent U libdir (w_fs w) < fuel ->
  relink_1 plat fuel w f libdir b <> OutOfFuel.
Proof.
  revert w f b; induction fuel as [|n IH]; intros w f b Hfin Hlt; [lia|simpl].
  destruct (linked plat (w_fs w) f) as [lk|] eqn:El; [|discriminate].
  destruct (relink plat (w_fs w) f libdir b) as [fs1|] eqn:Er; [|discriminate].
  destruct (copy_links _ libdir lk []) as [[w2 tl]|] eqn:Ec; [|discriminate].
  pose proof (relink_keeps_files _ _ _ _ _ Er) as Hk.
  assert (Hfin1 : finite_names U fs1).
  { intros p Hp; apply Hfin; rewrite Hk in Hp; exact Hp. }
  assert (Hl1 : forall l, In l lk -> exists_ fs1 l = true).
  { intros l Hl; rewrite Hk; exact (linked_exists _ _ _ El l Hl). }
  pose proof Ec as Hc; eapply copy_links_absent in Hc; [|exact Hfin1|exact Hl1].
  destruct Hc as [_ [Hfin2 [nw [Htl Hle]]]]; simpl in Htl; subst tl.
  assert (Habs1 : absent U libdir fs1 = absent U libdir (w_fs w)).
  { unfold absent; f_equal; apply filter_ext; intros s; rewrite Hk; reflexivity. }
  simpl in Hle; rewrite Habs1 in Hle.
  destruct nw as [|x nw']; [simpl; discriminate|].
  apply (for_each_fuel (fun w0 => finite_names U (w_fs w0) /\
                                  absent U libdir (w_fs w0) <= absent U libdir (w_fs w2))).
  - split; [exact Hfin2|lia].
  - intros w0 y w1 _ [Hf0 H0] Hrun.
    destruct (relink_1_mono _ _ _ _ _ _ Hrun Hf0) as [Hm1 Hf1].
    pose proof (absent_mono libdir _ _ Hm1); split; [auto|lia].
  - intros w0 y _ [Hf0 H0]; apply IH; [exact Hf0|simpl in Hle; lia].
Qed.

(** Claim C2: the walk terminates on every input, cycles included. *)
Theorem relink_1_terminates (w : world content) filename libdir set_name :
  finite_names U (w_fs w) ->
  exists fuel, relink_1 plat fuel w filename libdir set_name <> OutOfFuel.
Proof.
  intros Hfin; exists (S (length U)).
  apply relink_1_enough_fuel; [exact Hfin|].
  pose proof (absent_le_U libdir (w_fs w)); lia.
Qed.

(** Claim C3 (as amended): the nesting depth of the recursive walk is at
    most one plus the number of distinct base names on disk: that much fuel
    never runs out. *)
Theorem relink_1_depth_bound (w : world content) filename libdir set_name :
  finite_names U (w_fs w) ->
  relink_1 plat (S (length U)) w filename libdir set_name <> OutOfFuel.
Proof.
  intros Hfin; apply relink_1_enough_fuel; [exact Hfin|].
  pose proof (absent_le_U libdir (w_fs w)); lia.
Qed.

End Termination.

Module ToyFacts.
Import Toy.

Lemma toy_linked_exists : forall fs f lk,
  linked plat fs f = Some lk -> forall l, In l lk -> exists_ fs l = true.
Proof.
  simpl; unfold toy_linked; intros fs f lk H l Hl.
  destruct (fs f); [|discriminate]; inversion H; subst.
  apply filter_In in Hl; tauto.
Qed.

Lemma toy_relink_keeps : forall fs f libdir b fs',
  relink plat fs f libdir b = Some fs' -> forall p, exists_ fs' p = exists_ fs p.
Proof.
  simpl; unfold toy_relink; intros fs f libdir b fs' H p.
  destruct (fs f) as [c|] eqn:E; [|discriminate]; inversion H; subst.
  unfold exists_, fs_update; destruct (path_eqb p f) eqn:Ep; [|reflexivity].
  apply path_eqb_true in Ep; subst; rewrite E; reflexivity.
Qed.

Lemma mk_finite files : finite_names (toy_names files) (mk files).
Proof.
  intros p; unfold exists_, mk.
  destruct (find (fun e => path_eqb (fst e) p) files) as [[q c]|] eqn:E;
    [|discriminate]; intros _.
  apply find_some in E; destruct E as [Hin Heq]; simpl in Heq.
  apply path_eqb_true in Heq; subst.
  unfold toy_names; apply (in_map (fun e => basename (fst e)) _ _ Hin).
Qed.

End ToyFacts.

(** Witness of C2 on the cyclic example. *)
Lemma relink_1_terminates_witness :
  finite_names (Toy.toy_names Toy.tree_files) (Toy.mk Toy.tree_files) /\
  exists fuel, relink_1 Toy.plat fuel (Toy.start Toy.tree_files) Toy.main
                 Toy.libdir false <> OutOfFuel.
Proof.
  split; [apply ToyFacts.mk_finite|].
  apply (relink_1_terminates Toy.plat ToyFacts.toy_linked_exists
           ToyFacts.toy_relink_keeps (Toy.toy_names Toy.tree_files)).
  apply ToyFacts.mk_finite.
Defined.

(** Witness of C3's amended theorem on the chain. *)
Lemma relink_1_depth_bound_witness :
  finite_names (Toy.toy_names Toy.chain_files) (Toy.mk Toy.chain_files) /\
  relink_1 Toy.plat (S (length (Toy.toy_names Toy.chain_files)))
    (Toy.start Toy.chain_files) Toy.main Toy.libdir false <> OutOfFuel.
Proof.
  split; [apply ToyFacts.mk_finite|].
  apply (relink_1_depth_bound Toy.plat ToyFacts.toy_linked_exists
           ToyFacts.toy_relink_keeps (Toy.toy_names Toy.chain_files)).
  apply ToyFacts.mk_finite.
Defined.

(** Counterexample to C3 as stated: [libC] (depth 2, below [libA]) is
    relinked before [libB] (depth 1); and the chain
    [main -> libA -> libB -> libC] needs a recursion four calls deep (three is
    not enough). *)
Lemma relink_1_not_breadth_first :
  Toy.walk_order (relink_1 Toy.plat 10 (Toy.start Toy.tree_files) Toy.main
                    Toy.libdir false) =
    Some [Toy.main; Toy.libdir ++ ["libA.so"]; Toy.libdir ++ ["libC.so"];
          Toy.libdir ++ ["libB.so"]] /\
  relink_1 Toy.plat 3 (Toy.start Toy.chain_files) Toy.main Toy.libdir false
    = OutOfFuel /\
  relink_1 Toy.plat 4 (Toy.start Toy.chain_files) Toy.main Toy.libdir false
    <> OutOfFuel.
Proof. split; [|split]; vm_compute; [reflexivity|reflexivity|discriminate]. Qed.

(** ** What one run of the walk changes

    Hypothesis on the platform: a relink changes the file it is given and
    nothing else, and neither creates nor deletes it. *)
Section Frame.

Context {content : Type} (plat : Platform content).

Hypothesis relink_frame : forall fs f libdir b fs',
  relink plat fs f libdir b = Some fs' ->
  (forall p, p <> f -> fs' p = fs p) /\ exists_ fs' f = exists_ fs f.

Lemma copied_files_app l1 l2 :
  copied_files (l1 ++ l2) = copied_files l1 ++ copied_files l2.
Proof. unfold copied_files; apply flat_map_app. Qed.

Lemma relinked_files_app l1 l2 :
  relinked_files (l1 ++ l2) = relinked_files l1 ++ relinked_files l2.
Proof. unfold relinked_files; apply flat_map_app. Qed.

Lemma copy_links_post (w w2 : world content) libdir lk acc tl :
  copy_links w libdir lk acc = Some (w2, tl) ->
  exists nw new,
    tl = acc ++ nw /\ w_log w2 = w_log w ++ new /\
    copied_files new = nw /\ relinked_files new = [] /\
    NoDup nw /\
    (forall x, In x nw ->
       exists_ (w_fs w) x = false /\ exists_ (w_fs w2) x = true /\
       exists l, In l lk /\ x = join libdir (basename l) /\
         ((forall s, l <> join libdir s) -> w_fs w2 x = w_fs w l)) /\
    (forall p, ~ In p nw -> w_fs w2 p = w_fs w p) /\
    (forall l, In l lk -> exists_ (w_fs w2) (join libdir (basename l)) = true).
Proof.
  revert w acc; induction lk as [|l lk IH]; intros w acc H; simpl in H.
  - inversion H; subst; exists [], [].
    rewrite !app_nil_r.
    split; [reflexivity|split; [reflexivity|split; [reflexivity|split; [reflexivity|]]]].
    split; [constructor|]; split; [simpl; tauto|]; split; [reflexivity|simpl; tauto].
  - destruct (exists_ (w_fs w) (join libdir (basename l))) eqn:Ex.
    + destruct (IH _ _ H) as (nw & new & Htl & Hlog & Hc & Hr & Hnd & Hx & Hfr & He).
      exists nw, new.
      refine (conj Htl (conj Hlog (conj Hc (conj Hr (conj Hnd (conj _ (conj Hfr _))))))).
      * intros y Hy; destruct (Hx _ Hy) as (Ha & Hp & l' & Hl' & Hrest).
        split; [exact Ha|split; [exact Hp|exists l'; split; [now right|exact Hrest]]].
      * intros l' [<-|Hl']; [|apply He, Hl'].
        destruct (in_dec (list_eq_dec string_dec) (join libdir (basename l)) nw)
          as [Hin|Hin].
        -- apply (Hx _ Hin).
        -- unfold exists_; rewrite Hfr by exact Hin; exact Ex.
    + destruct (copy w l libdir) as [w'|] eqn:Ec; [|discriminate].
      unfold copy in Ec; destruct (w_fs w l) as [c|] eqn:Ecl; [|discriminate].
      inversion Ec; subst w'; clear Ec.
      set (x := join libdir (basename l)) in *.
      destruct (IH _ _ H) as (nw & new & Htl & Hlog & Hc & Hr & Hnd & Hx & Hfr & He).
      cbn [w_fs w_log] in *.
      assert (Hxw' : fs_update (w_fs w) x (Some c) x = Some c).
      { unfold fs_update; rewrite path_eqb_refl; reflexivity. }
      assert (Hxnw : ~ In x nw).
      { intros Hin; destruct (Hx _ Hin) as [Ha _]; unfold exists_ in Ha.
        rewrite Hxw' in Ha; discriminate. }
      assert (Hupd : forall p, p <> x -> fs_update (w_fs w) x (Some c) p = w_fs w p).
      { intros p Hp; unfold fs_update; rewrite path_eqb_false by exact Hp; reflexivity. }
      exists (x :: nw), (Copied l x :: new).
      split; [rewrite Htl, <- app_assoc; reflexivity|].
      split; [rewrite Hlog, <- app_assoc; reflexivity|].
      split; [simpl; rewrite Hc; reflexivity|].
      split; [simpl; exact Hr|].
      split; [constructor; auto|].
      split; [|split].
      * intros y [<-|Hy].
        -- split; [exact Ex|]; split.
           ++ unfold exists_; rewrite (Hfr _ Hxnw), Hxw'; reflexivity.
           ++ exists l; split; [now left|split; [reflexivity|]].
              intros _; rewrite (Hfr _ Hxnw), Hxw', Ecl; reflexivity.
        -- destruct (Hx _ Hy) as (Ha & Hp & l' & Hl' & Hy' & Hc').
           split; [|split; [exact Hp|]].
           ++ assert (Hyx : y <> x) by (intros Heq; rewrite Heq in Hy; contradiction).
              unfold exists_ in Ha |- *; rewrite Hupd in Ha by exact Hyx; exact Ha.
           ++ exists l'; split; [now right|split; [exact Hy'|]].
              intros Hout; rewrite (Hc' Hout), Hupd; [reflexivity|].
              intros ->; apply (Hout (basename l)); reflexivity.
      * intros p Hp; rewrite Hfr by (intros Hin; apply Hp; now right).
        apply Hupd; intros ->; apply Hp; now left.
      * intros l' [<-|Hl']; [|apply He, Hl'].
        change (join libdir (basename l)) with x.
        unfold exists_; rewrite (Hfr _ Hxnw), Hxw'; reflexivity.
Qed.

Lemma relink_exists fs f libdir b fs1 :
  relink plat fs f libdir b = Some fs1 -> forall p, exists_ fs1 p = exists_ fs p.
Proof.
  intros H p; destruct (relink_frame _ _ _ _ _ H) as [Hfr Hex].
  destruct (list_eq_dec string_dec p f) as [->|Hp]; [exact Hex|].
  unfold exists_; rewrite Hfr by exact Hp; reflexivity.
Qed.

Lemma copy_links_mono (w w2 : world content) libdir lk acc tl :
  copy_links w libdir lk acc = Some (w2, tl) ->
  forall p, exists_ (w_fs w) p = true -> exists_ (w_fs w2) p = true.
Proof.
  intros H p Hp.
  destruct (copy_links_post _ _ _ _ _ _ H) as (nw & _ & _ & _ & _ & _ & _ & Hx & Hfr & _).
  destruct (in_dec (list_eq_dec string_dec) p nw) as [Hin|Hin].
  - apply (Hx _ Hin).
  - unfold exists_ in *; rewrite Hfr by exact Hin; exact Hp.
Qed.

Lemma relink_1_post n w f libdir b w' :
  relink_1 plat n w f libdir b = Ok w' ->
  exists lk fs1 new,
    linked plat (w_fs w) f = Some lk /\
    relink plat (w_fs w) f libdir b = Some fs1 /\
    w_log w' = w_log w ++ Relinked f b :: new /\
    (forall p, exists_ (w_fs w) p = true -> exists_ (w_fs w') p = true) /\
    (forall p, (forall s, p = join libdir s -> exists_ (w_fs w) p = true) ->
               w_fs w' p = fs1 p) /\
    (forall l, In l lk -> exists_ (w_fs w') (join libdir (basename l)) = true) /\
    NoDup (copied_files new) /\
    (forall d, In d (copied_files new) ->
       exists_ (w_fs w) d = false /\ exists_ (w_fs w') d = true /\ in_libdir libdir d) /\
    (forall g, In g (relinked_files new) ->
       exists_ (w_fs w) g = false /\ in_libdir libdir g).
Proof.
  revert w f b w'; induction n as [|n IH]; intros w f b w' H; simpl in H;
    [discriminate|].
  destruct (linked plat (w_fs w) f) as [lk|] eqn:El; [|discriminate].
  destruct (relink plat (w_fs w) f libdir b) as [fs1|] eqn:Er; [|discriminate].
  destruct (copy_links _ libdir lk []) as [[w2 tl]|] eqn:Ec; [|discriminate].
  pose proof (relink_exists _ _ _ _ _ Er) as Hex1.
  pose proof (copy_links_mono _ _ _ _ _ _ Ec) as Hm2.
  destruct (copy_links_post _ _ _ _ _ _ Ec)
    as (nw & new1 & Htl & Hlog1 & Hc1 & Hr1 & Hnd1 & Hx & Hfr2 & He);
    cbn [w_fs w_log app] in *; subst tl.
  (* the loop over [to_link] *)
  assert (Hloop : exists new2,
    w_log w' = w_log w2 ++ new2 /\
    (forall p, exists_ (w_fs w2) p = true -> exists_ (w_fs w') p = true) /\
    (forall p, (forall s, p = join libdir s -> exists_ (w_fs w) p = true) ->
               w_fs w' p = w_fs w2 p) /\
    NoDup (copied_files new2) /\
    (forall d, In d (copied_files new2) ->
       exists_ (w_fs w2) d = false /\ exists_ (w_fs w') d = true /\ in_libdir libdir d) /\
    (forall g, In g (relinked_files new2) ->
       exists_ (w_fs w) g = false /\ in_libdir libdir g)).
  { refine (for_each_inv (fun w0 => exists new2,
      w_log w0 = w_log w2 ++ new2 /\
      (forall p, exists_ (w_fs w2) p = true -> exists_ (w_fs w0) p = true) /\
      (forall p, (forall s, p = join libdir s -> exists_ (w_fs w) p = true) ->
                 w_fs w0 p = w_fs w2 p) /\
      NoDup (copied_files new2) /\
      (forall d, In d (copied_files new2) ->
         exists_ (w_fs w2) d = false /\ exists_ (w_fs w0) d = true /\ in_libdir libdir d) /\
      (forall g, In g (relinked_files new2) ->
         exists_ (w_fs w) g = false /\ in_libdir libdir g)) _ _ _ _ _ _ H).
    - exists []; rewrite app_nil_r; simpl.
      split; [reflexivity|split; [auto|split; [auto|split; [constructor|]]]].
      split; intros ? [].
    - intros w0 x w1 Hxin (new2 & Hl0 & Hm0 & Hf0 & Hnd0 & Hc0 & Hr0) Hrun.
      destruct (Hx _ Hxin) as (Hxa & _ & lx & _ & Hxj & _).
      rewrite Hex1 in Hxa.
      destruct (IH _ _ _ _ Hrun)
        as (lk' & fs1' & new' & _ & Er' & Hl1 & Hm1 & Hf1 & _ & Hnd' & Hc' & Hr').
      destruct (relink_frame _ _ _ _ _ Er') as [Hfr' _].
      assert (Hww0 : forall p, exists_ (w_fs w) p = true -> exists_ (w_fs w0) p = true).
      { intros p Hp; apply Hm0, Hm2; rewrite Hex1; exact Hp. }
      exists (new2 ++ Relinked x true :: new').
      split; [rewrite Hl1, Hl0, <- app_assoc; reflexivity|].
      split; [auto|].
      split.
      { intros p Hp.
        assert (Hpx : p <> x).
        { intros ->; specialize (Hp _ Hxj); congruence. }
        rewrite Hf1; [rewrite Hfr' by exact Hpx; apply Hf0; exact Hp|].
        intros s Hs; apply Hww0; exact (Hp s Hs). }
      rewrite copied_files_app, relinked_files_app; simpl.
      split.
      { apply NoDup_app; [exact Hnd0|exact Hnd'|].
        intros d Hd1 Hd2; destruct (Hc0 _ Hd1) as (_ & Hp & _);
          destruct (Hc' _ Hd2) as (Ha & _); congruence. }
      split.
      { intros d Hd; apply in_app_or in Hd; destruct Hd as [Hd|Hd].
        - destruct (Hc0 _ Hd) as (Ha & Hp & Hl); split; [exact Ha|split; [auto|exact Hl]].
        - destruct (Hc' _ Hd) as (Ha & Hp & Hl); split; [|split; [exact Hp|exact Hl]].
          destruct (exists_ (w_fs w2) d) eqn:E; [|reflexivity].
          rewrite (Hm0 _ E) in Ha; discriminate. }
      { intros g Hg; apply in_app_or in Hg; destruct Hg as [Hg|[<-|Hg]].
        - apply Hr0, Hg.
        - split; [exact Hxa|exists (basename lx); exact Hxj].
        - destruct (Hr' _ Hg) as (Ha & Hl); split; [|exact Hl].
          destruct (exists_ (w_fs w) g) eqn:E; [|reflexivity].
          rewrite (Hww0 _ E) in Ha; discriminate. } }
  destruct Hloop as (new2 & Hl & Hm & Hf & Hnd2 & Hc2 & Hr2).
  exists lk, fs1, (new1 ++ new2).
  split; [reflexivity|split; [reflexivity|]].
  split; [rewrite Hl, Hlog1, <- !app_assoc; reflexivity|].
  split; [intros p Hp; apply Hm, Hm2; rewrite Hex1; exact Hp|].
  split.
  { intros p Hp; rewrite Hf by exact Hp; apply Hfr2.
    intros Hin; destruct (Hx _ Hin) as (Ha & _ & lx & _ & Hxj & _).
    rewrite Hex1, (Hp _ Hxj) in Ha; discriminate. }
  split; [intros l Hl0; apply Hm, He, Hl0|].
  rewrite copied_files_app, relinked_files_app, Hc1, Hr1; simpl.
  split.
  { apply NoDup_app; [exact Hnd1|exact Hnd2|].
    intros d Hd1 Hd2; destruct (Hx _ Hd1) as (_ & Hp & _);
      destruct (Hc2 _ Hd2) as (Ha & _); congruence. }
  split; [|exact Hr2].
  intros d Hd; apply in_app_or in Hd; destruct Hd as [Hd|Hd].
  - destruct (Hx _ Hd) as (Ha & Hp & lx & _ & Hxj & _).
    rewrite Hex1 in Ha; split; [exact Ha|split; [apply Hm, Hp|exists (basename lx); exact Hxj]].
  - destruct (Hc2 _ Hd) as (Ha & Hp & Hl0); split; [|split; [exact Hp|exact Hl0]].
    destruct (exists_ (w_fs w) d) eqn:E; [|reflexivity].
    rewrite <- Hex1 in E; rewrite (Hm2 _ E) in Ha; discriminate.
Qed.

(** Claim C10 (as amended): a file already in [libdir] when the walk starts
    (other than the binary the walk starts from) is neither overwritten by a
    copy nor relinked: its content is unchanged at the end.  Files the walk
    copies itself are not protected (see [relink_1_copied_then_relinked]). *)
Theorem relink_1_keeps_vendored n w f libdir b w' s c :
  relink_1 plat n w f libdir b = Ok w' ->
  w_fs w (join libdir s) = Some c -> join libdir s <> f ->
  w_fs w' (join libdir s) = Some c /\
  exists new, w_log w' = w_log w ++ Relinked f b :: new /\
    ~ In (join libdir s) (copied_files new) /\
    ~ In (join libdir s) (relinked_files new).
Proof.
  intros H Hc Hf.
  destruct (relink_1_post _ _ _ _ _ _ H)
    as (lk & fs1 & new & _ & Er & Hlog & _ & Hfr & _ & _ & Hcp & Hrl).
  assert (Hex : exists_ (w_fs w) (join libdir s) = true) by (unfold exists_; rewrite Hc; reflexivity).
  split.
  - rewrite Hfr.
    + destruct (relink_frame _ _ _ _ _ Er) as [Hfr1 _]; rewrite Hfr1 by exact Hf; exact Hc.
    + intros s' _; exact Hex.
  - exists new; split; [exact Hlog|split].
    + intros Hin; destruct (Hcp _ Hin) as [Ha _]; congruence.
    + intros Hin; destruct (Hrl _ Hin) as [Ha _]; congruence.
Qed.

Lemma relink_1_new_copied n (w w' : world content) f libdir b p :
  relink_1 plat n w f libdir b = Ok w' ->
  exists_ (w_fs w') p = true -> exists_ (w_fs w) p = false ->
  In p (copied_files (w_log w')).
Proof.
  revert w f b w'; induction n as [|n IH]; intros w f b w' H Hp' Hp;
    [discriminate|].
  pose proof H as H0; simpl in H0.
  destruct (linked plat (w_fs w) f) as [lk|] eqn:El; [|discriminate].
  destruct (relink plat (w_fs w) f libdir b) as [fs1|] eqn:Er; [|discriminate].
  destruct (copy_links _ libdir lk []) as [[w2 tl]|] eqn:Ec; [|discriminate].
  pose proof (relink_exists _ _ _ _ _ Er p) as Hex1.
  destruct (copy_links_post _ _ _ _ _ _ Ec)
    as (nw & new1 & Htl & Hlog1 & Hc1 & _ & _ & _ & Hfr2 & _);
    cbn [w_fs w_log app] in *; subst tl.
  revert Hp'.
  apply (for_each_inv (fun w0 => exists_ (w_fs w0) p = true ->
                                 In p (copied_files (w_log w0)))
           (fun w so => relink_1 plat n w so libdir true) nw w2 w');
    [| |exact H0].
  - intros Hp2.
    rewrite Hlog1, copied_files_app, Hc1; apply in_or_app; right.
    destruct (in_dec (list_eq_dec string_dec) p nw) as [Hin|Hin]; [exact Hin|].
    unfold exists_ in Hp2; rewrite Hfr2 in Hp2 by exact Hin.
    fold (exists_ fs1 p) in Hp2; congruence.
  - intros w0 x w1 _ Hinv Hk Hp1.
    destruct (relink_1_post _ _ _ _ _ _ Hk) as (_ & _ & new & _ & _ & Hlog & Hm & _).
    destruct (exists_ (w_fs w0) p) eqn:E0.
    + rewrite Hlog, copied_files_app; apply in_or_app; left; apply Hinv; reflexivity.
    + apply (IH w0 x true w1 Hk Hp1 E0).
Qed.

End Frame.

(** ** Every copy is relinked exactly once *)
Section Enqueue.

Context {content : Type} (plat : Platform content).

Lemma copy_links_log (w w2 : world content) libdir lk acc tl :
  copy_links w libdir lk acc = Some (w2, tl) ->
  exists new, w_log w2 = w_log w ++ new /\ tl = acc ++ copied_files new /\
    relinked_files new = [].
Proof.
  revert w acc; induction lk as [|l lk IH]; intros w acc H; simpl in H.
  - inversion H; subst; exists []; rewrite !app_nil_r; auto.
  - destruct (exists_ (w_fs w) (join libdir (basename l))).
    + exact (IH _ _ H).
    + unfold copy in H; destruct (w_fs w l) as [c|]; [|discriminate].
      destruct (IH _ _ H) as (new & Hl & Ht & Hr); simpl in Hl.
      exists (Copied l (join libdir (basename l)) :: new).
      rewrite Hl, <- app_assoc; split; [reflexivity|].
      rewrite Ht, <- app_assoc; split; [reflexivity|exact Hr].
Qed.

Lemma for_each_relinked k (w w' : world content) l :
  (forall w0 x w1, In x l -> k w0 x = Ok w1 ->
     exists new, w_log w1 = w_log w0 ++ Relinked x true :: new /\
       Permutation (relinked_files new) (copied_files new)) ->
  for_each k w l = Ok w' ->
  exists new, w_log w' = w_log w ++ new /\
    Permutation (relinked_files new) (l ++ copied_files new).
Proof.
  revert w; induction l as [|x l IH]; intros w Hk H; simpl in H.
  - inversion H; subst; exists []; rewrite app_nil_r; split; [reflexivity|constructor].
  - destruct (k w x) as [w1| |] eqn:E; try discriminate.
    destruct (Hk _ _ _ (or_introl eq_refl) E) as (nx & Hlx & Hpx).
    destruct (IH w1 (fun w0 y w2 Hy => Hk w0 y w2 (or_intror Hy)) H) as (nr & Hlr & Hpr).
    exists ((Relinked x true :: nx) ++ nr).
    split; [rewrite Hlr, Hlx, <- app_assoc; reflexivity|].
    rewrite relinked_files_app, copied_files_app; cbn [relinked_files flat_map app].
    change ((x :: l) ++ copied_files (Relinked x true :: nx) ++ copied_files nr)
      with (x :: (l ++ copied_files nx ++ copied_files nr)).
    apply perm_skip.
    apply (Permutation_trans (Permutation_app Hpx Hpr)).
    rewrite !app_assoc; apply Permutation_app_tail, Permutation_app_comm.
Qed.

(** The files one walk relinks after its root are its copies, each once. *)
Lemma relink_1_relinked_copied n (w w' : world content) f libdir b :
  relink_1 plat n w f libdir b = Ok w' ->
  exists new, w_log w' = w_log w ++ Relinked f b :: new /\
    Permutation (relinked_files new) (copied_files new).
Proof.
  revert w f b w'; induction n as [|n IH]; intros w f b w' H; simpl in H;
    [discriminate|].
  destruct (linked plat (w_fs w) f) as [lk|]; [|discriminate].
  destruct (relink plat (w_fs w) f libdir b) as [fs1|]; [|discriminate].
  destruct (copy_links _ libdir lk []) as [[w2 tl]|] eqn:Ec; [|discriminate].
  destruct (copy_links_log _ _ _ _ _ _ Ec) as (new1 & Hl1 & Ht1 & Hr1);
    cbn [w_log app] in Hl1, Ht1; subst tl.
  destruct (for_each_relinked _ _ _ _
              (fun w0 x w1 _ Hk => IH w0 x true w1 Hk) H) as (new2 & Hl2 & Hp2).
  exists (new1 ++ new2); split.
  - rewrite Hl2, Hl1, <- !app_assoc; reflexivity.
  - rewrite relinked_files_app, copied_files_app, Hr1; exact Hp2.
Qed.

End Enqueue.

(** ** Running the walk a second time

    Hypotheses: the inspector's answer depends only on the file's content
    ([deps]), a relink changes only the file it is given, and after a
    relink the file reports no base name it did not report before (an rpath
    into [libdir] makes [ldd] resolve the same sonames there; rewritten
    Mach-O references point to [@loader_path/...], which is no file). *)
Section Rerun.

Context {content : Type} (plat : Platform content) (deps : content -> list path).

Hypothesis relink_frame : forall fs f libdir b fs',
  relink plat fs f libdir b = Some fs' ->
  (forall p, p <> f -> fs' p = fs p) /\ exists_ fs' f = exists_ fs f.

Hypothesis linked_deps : forall fs f c,
  fs f = Some c -> linked plat fs f = Some (deps c).

Hypothesis relink_names : forall fs f libdir b fs' c,
  relink plat fs f libdir b = Some fs' -> fs f = Some c ->
  exists c', fs' f = Some c' /\
    forall q, In q (deps c') -> exists q', In q' (deps c) /\ basename q' = basename q.

Lemma copy_links_all_present (w : world content) libdir lk acc :
  (forall l, In l lk -> exists_ (w_fs w) (join libdir (basename l)) = true) ->
  copy_links w libdir lk acc = Some (w, acc).
Proof.
  revert acc; induction lk as [|l lk IH]; intros acc H; simpl; [reflexivity|].
  rewrite (H l (or_introl eq_refl)); apply IH; intros; apply H; now right.
Qed.

Lemma relink_1_rerun n1 n2 (w0 w1 w2 : world content) root libdir b b' c0 :
  w_fs w0 root = Some c0 -> (forall s, root <> join libdir s) ->
  relink_1 plat n1 w0 root libdir b = Ok w1 ->
  relink_1 plat n2 w1 root libdir b' = Ok w2 ->
  (forall p, p <> root -> w_fs w2 p = w_fs w1 p) /\
  w_log w2 = w_log w1 ++ [Relinked root b'].
Proof.
  intros Hc0 Hroot H1 H2.
  destruct (relink_1_post plat relink_frame _ _ _ _ _ _ H1)
    as (lk & fs1 & new & El & Er & _ & _ & Hfr & He & _).
  rewrite (linked_deps _ _ _ Hc0) in El; inversion El; subst lk; clear El.
  destruct (relink_names _ _ _ _ _ _ Er Hc0) as (c1 & Hc1 & Hnames).
  assert (Hw1 : w_fs w1 root = Some c1).
  { rewrite Hfr; [exact Hc1|]. intros s Hs; exfalso; exact (Hroot s Hs). }
  destruct n2 as [|m]; [discriminate|]; simpl in H2.
  rewrite (linked_deps _ _ _ Hw1) in H2.
  destruct (relink plat (w_fs w1) root libdir b') as [fs2|] eqn:Er2; [|discriminate].
  pose proof (relink_exists plat relink_frame _ _ _ _ _ Er2) as Hex2.
  rewrite copy_links_all_present in H2.
  - simpl in H2; inversion H2; subst w2; clear H2; simpl; split; [|reflexivity].
    intros p Hp; destruct (relink_frame _ _ _ _ _ Er2) as [Hfr2 _]; apply Hfr2, Hp.
  - intros q Hq; simpl; rewrite Hex2.
    destruct (Hnames q Hq) as (q' & Hq' & Hb); rewrite <- Hb; apply He, Hq'.
Qed.

(** Claim C4: within one walk every copy goes to a base name absent from
    [libdir] when the walk started, at most once per name; the files relinked
    after the root are exactly the copies, each once (a name already in
    [libdir], at the start or through an earlier copy of the same walk, is
    neither copied nor enqueued again); a second walk over the result copies
    nothing and changes no file but the root binary it relinks again. *)
Theorem relink_1_dedup :
  (forall n (w w' : world content) f libdir b,
     relink_1 plat n w f libdir b = Ok w' ->
     exists new, w_log w' = w_log w ++ Relinked f b :: new /\
       NoDup (copied_files new) /\
       (forall d, In d (copied_files new) ->
          exists_ (w_fs w) d = false /\ in_libdir libdir d) /\
       Permutation (relinked_files new) (copied_files new) /\
       NoDup (relinked_files new)) /\
  (forall n1 n2 (w0 w1 w2 : world content) root libdir c0,
     w_fs w0 root = Some c0 -> (forall s, root <> join libdir s) ->
     relink_1 plat n1 w0 root libdir false = Ok w1 ->
     relink_1 plat n2 w1 root libdir false = Ok w2 ->
     (forall p, p <> root -> w_fs w2 p = w_fs w1 p) /\
     exists new, w_log w2 = w_log w1 ++ new /\ copied_files new = []).
Proof.
  split.
  - intros n w w' f libdir b H.
    destruct (relink_1_post plat relink_frame _ _ _ _ _ _ H)
      as (lk & fs1 & new & _ & _ & Hlog & _ & _ & _ & Hnd & Hcp & _).
    destruct (relink_1_relinked_copied plat _ _ _ _ _ _ H) as (new' & Hlog' & Hp).
    rewrite Hlog in Hlog'; apply app_inv_head in Hlog'; injection Hlog' as <-.
    exists new; split; [exact Hlog|].
    split; [exact Hnd|split; [|split; [exact Hp|]]].
    + intros d Hd; destruct (Hcp _ Hd) as (Ha & _ & Hl); split; assumption.
    + apply (Permutation_NoDup (Permutation_sym Hp)), Hnd.
  - intros n1 n2 w0 w1 w2 root libdir c0 Hc0 Hroot H1 H2.
    destruct (relink_1_rerun _ _ _ _ _ _ _ _ _ _ Hc0 Hroot H1 H2) as [Hfr Hlog].
    split; [exact Hfr|]; exists [Relinked root false]; split; [exact Hlog|reflexivity].
Qed.

End Rerun.

Module ToyFacts2.
Import Toy.

Lemma toy_relink_frame : forall fs f libdir b fs',
  toy_relink fs f libdir b = Some fs' ->
  (forall p, p <> f -> fs' p = fs p) /\ exists_ fs' f = exists_ fs f.
Proof.
  unfold toy_relink; intros fs f libdir b fs' H.
  destruct (fs f) as [c|] eqn:E; [|discriminate]; inversion H; subst; clear H.
  unfold fs_update, exists_; split.
  - intros p Hp; rewrite path_eqb_false by exact Hp; reflexivity.
  - rewrite path_eqb_refl, E; reflexivity.
Qed.

Lemma toy_ldd_deps : forall fs f (c : content),
  fs f = Some c -> linked plat_ldd fs f = Some c.
Proof. intros fs f c H; exact H. Qed.

Lemma toy_relink_names : forall fs f libdir b fs' (c : content),
  relink plat_ldd fs f libdir b = Some fs' -> fs f = Some c ->
  exists c', fs' f = Some c' /\
    forall q, In q c' -> exists q', In q' c /\ basename q' = basename q.
Proof.
  simpl; unfold toy_relink; intros fs f libdir b fs' c H Hc.
  rewrite Hc in H; inversion H; subst; clear H.
  eexists; split; [unfold fs_update; rewrite path_eqb_refl; reflexivity|].
  intros q Hq; apply in_map_iff in Hq; destruct Hq as (q' & <- & Hq').
  exists q'; split; [exact Hq'|symmetry; apply basename_join].
Qed.

End ToyFacts2.

(** Witness of C10: the stale [libA.so] already in [libdir] survives a walk
    from [main], which references a different [/opt/libA.so]. *)
Lemma relink_1_keeps_vendored_witness :
  let r := relink_1 Toy.plat 10 (Toy.start Toy.prevendored_files) Toy.main
             Toy.libdir false in
  r = Ok (Toy.final r) /\
  w_fs (Toy.start Toy.prevendored_files) (join Toy.libdir "libA.so") =
    Some Toy.stale_libA /\
  w_fs (Toy.final r) (join Toy.libdir "libA.so") = Some Toy.stale_libA.
Proof.
  intros r.
  assert (H : r = Ok (Toy.final r)) by (vm_compute; reflexivity).
  split; [exact H|split; [reflexivity|]].
  refine (proj1 (relink_1_keeps_vendored Toy.plat ToyFacts2.toy_relink_frame
                   10 _ _ _ _ _ "libA.so" Toy.stale_libA H eq_refl _)).
  discriminate.
Defined.

(** Counterexample to C10 as stated: [/a/libX.so] is copied to
    [libdir/libX.so] while the references of [main] are copied, so when
    [/b/libX.so] is reached next, [libdir/libX.so] is present and the
    reference is skipped; yet the walk then relinks [libdir/libX.so], whose
    content changes from that of [/a/libX.so]. *)
Lemma relink_1_copied_then_relinked :
  (Toy.mk shadowed_files Toy.main = Some [["a"; "libX.so"]; ["b"; "libX.so"]]) /\
  (w_log (Toy.final (relink_1 Toy.plat 10 (Toy.start shadowed_files) Toy.main
                       Toy.libdir false)) =
     [Relinked Toy.main false;
      Copied ["a"; "libX.so"] (Toy.libdir ++ ["libX.so"]);
      Relinked (Toy.libdir ++ ["libX.so"]) true;
      Copied ["c"; "libY.so"] (Toy.libdir ++ ["libY.so"]);
      Relinked (Toy.libdir ++ ["libY.so"]) true]) /\
  (Toy.mk shadowed_files ["a"; "libX.so"] = Some [["c"; "libY.so"]]) /\
  (w_fs (Toy.final (relink_1 Toy.plat 10 (Toy.start shadowed_files) Toy.main
                      Toy.libdir false)) (Toy.libdir ++ ["libX.so"]) =
     Some [Toy.libdir ++ ["libY.so"]]).
Proof. split; [|split; [|split]]; vm_compute; reflexivity. Qed.

(** Witness of C4: a second walk from [main] over the result of a first
    walk changes no file but [main]. *)
Lemma relink_1_dedup_witness :
  let w1 := Toy.final (relink_1 Toy.plat_ldd 10 (Toy.start Toy.tree_files)
                         Toy.main Toy.libdir false) in
  let w2 := Toy.final (relink_1 Toy.plat_ldd 10 w1 Toy.main Toy.libdir false) in
  relink_1 Toy.plat_ldd 10 (Toy.start Toy.tree_files) Toy.main Toy.libdir false
    = Ok w1 /\
  relink_1 Toy.plat_ldd 10 w1 Toy.main Toy.libdir false = Ok w2 /\
  (forall p, p <> Toy.main -> w_fs w2 p = w_fs w1 p).
Proof.
  intros w1 w2.
  assert (H1 : relink_1 Toy.plat_ldd 10 (Toy.start Toy.tree_files) Toy.main
                 Toy.libdir false = Ok w1) by (vm_compute; reflexivity).
  assert (H2 : relink_1 Toy.plat_ldd 10 w1 Toy.main Toy.libdir false = Ok w2)
    by (vm_compute; reflexivity).
  split; [exact H1|split; [exact H2|]].
  refine (proj1 (proj2 (relink_1_dedup Toy.plat_ldd (fun c => c)
                          ToyFacts2.toy_relink_frame ToyFacts2.toy_ldd_deps
                          ToyFacts2.toy_relink_names)
                   10 10 (Toy.start Toy.tree_files) _ _ Toy.main Toy.libdir
                   [["opt"; "libA.so"]; ["opt"; "libB.so"]] eq_refl _ H1 H2)).
  intros s Hs; discriminate.
Defined.

(** ** Closure completeness *)
Section Closure.

Context {content : Type} (plat : Platform content) (deps : content -> list path).

Hypothesis relink_frame : forall fs f libdir b fs',
  relink plat fs f libdir b = Some fs' ->
  (forall p, p <> f -> fs' p = fs p) /\ exists_ fs' f = exists_ fs f.

Hypothesis linked_deps : forall fs f c,
  fs f = Some c -> linked plat fs f = Some (deps c).

Section Fixed.

Variables (fs0 : FS content) (croot : content) (libdir : path).

Let R := reach deps fs0 croot.

(** The libraries of the graph lie outside [libdir]. *)
Hypothesis sources_outside : forall p s, R p -> p <> join libdir s.

Let closed := vendored_closed deps fs0 croot libdir.

Lemma closed_mono (fs fs' : FS content) s :
  (forall p, exists_ fs p = true -> exists_ fs' p = true) ->
  closed fs s -> closed fs' s.
Proof.
  intros Hm (p & c & Hr & Hb & Hc & Hq); exists p, c; repeat split; auto.
Qed.

Lemma deps_reach c q :
  (c = croot \/ exists p, R p /\ fs0 p = Some c) -> In q (deps c) -> R q.
Proof.
  intros [->|(p & Hp & Hc)] Hq; [apply reach_direct, Hq|].
  eapply reach_step; eauto.
Qed.

Lemma closure_loop n :
  (forall (w w' : world content) f b c,
     relink_1 plat n w f libdir b = Ok w' ->
     (forall p, R p -> w_fs w p = fs0 p) ->
     w_fs w f = Some c -> (c = croot \/ exists p, R p /\ fs0 p = Some c) ->
     (forall p, R p -> p <> f) ->
     (forall p, R p -> w_fs w' p = fs0 p) /\
     (forall q, In q (deps c) -> exists_ (w_fs w') (join libdir (basename q)) = true) /\
     (forall s, exists_ (w_fs w') (join libdir s) = true ->
                exists_ (w_fs w) (join libdir s) = false -> closed (w_fs w') s)) ->
  forall rest (w0 w' : world content),
    for_each (fun w so => relink_1 plat n w so libdir true) w0 rest = Ok w' ->
    (forall p, R p -> w_fs w0 p = fs0 p) ->
    NoDup rest ->
    (forall x, In x rest -> exists l c, R l /\ x = join libdir (basename l) /\
                               fs0 l = Some c /\ w_fs w0 x = Some c) ->
    (forall p, R p -> w_fs w' p = fs0 p) /\
    (forall x, In x rest -> closed (w_fs w') (basename x)) /\
    (forall p, exists_ (w_fs w0) p = true -> exists_ (w_fs w') p = true) /\
    (forall s, exists_ (w_fs w') (join libdir s) = true ->
               exists_ (w_fs w0) (join libdir s) = false -> closed (w_fs w') s).
Proof.
  intros IHn rest; induction rest as [|x rest IH]; intros w0 w' H Hsrc Hnd Hx;
    simpl in H.
  - inversion H; subst; split; [auto|split; [intros ? []|split; [auto|]]].
    intros s H1 H2; congruence.
  - destruct (relink_1 plat n w0 x libdir true) as [w1| |] eqn:E; try discriminate.
    destruct (Hx x (or_introl eq_refl)) as (l & c & Hl & Hxj & Hc & Hxc).
    destruct (IHn _ _ _ _ _ E Hsrc Hxc (or_intror (ex_intro _ l (conj Hl Hc))))
      as (Hsrc1 & Hdeps1 & Hnew1).
    { intros p Hp ->; exact (sources_outside _ _ Hp Hxj). }
    destruct (relink_1_post plat relink_frame _ _ _ _ _ _ E)
      as (_ & fs1' & _ & _ & Er' & _ & Hm1 & Hf1 & _).
    destruct (relink_frame _ _ _ _ _ Er') as [Hfr' _].
    inversion Hnd as [|? ? Hxnot Hnd']; subst.
    destruct (IH _ _ H Hsrc1 Hnd') as (Hsrc' & Hcl & Hm' & Hnew').
    { intros y Hy; destruct (Hx y (or_intror Hy)) as (l' & c' & Hl' & Hyj & Hc' & Hyc).
      exists l', c'; repeat split; auto.
      rewrite Hf1.
      - rewrite Hfr'; [exact Hyc|]; intros ->; contradiction.
      - intros s _; unfold exists_; rewrite Hyc; reflexivity. }
    split; [exact Hsrc'|split; [|split]].
    + intros y [<-|Hy]; [|apply Hcl, Hy].
      exists l, c; rewrite basename_join; repeat split; auto.
    + intros p Hp; apply Hm', Hm1, Hp.
    + intros s Hs Hs0.
      destruct (exists_ (w_fs w1) (join libdir s)) eqn:E1.
      * apply (closed_mono (w_fs w1)); [exact Hm'|apply Hnew1; assumption].
      * apply Hnew'; assumption.
Qed.

Lemma closure_post n :
  forall (w w' : world content) f b c,
    relink_1 plat n w f libdir b = Ok w' ->
    (forall p, R p -> w_fs w p = fs0 p) ->
    w_fs w f = Some c -> (c = croot \/ exists p, R p /\ fs0 p = Some c) ->
    (forall p, R p -> p <> f) ->
    (forall p, R p -> w_fs w' p = fs0 p) /\
    (forall q, In q (deps c) -> exists_ (w_fs w') (join libdir (basename q)) = true) /\
    (forall s, exists_ (w_fs w') (join libdir s) = true ->
               exists_ (w_fs w) (join libdir s) = false -> closed (w_fs w') s).
Proof.
  induction n as [|n IHn]; intros w w' f b c H Hsrc Hfc Horig Hnotf; [discriminate|].
  pose proof H as H0; simpl in H0.
  rewrite (linked_deps _ _ _ Hfc) in H0.
  destruct (relink plat (w_fs w) f libdir b) as [fs1|] eqn:Er; [|discriminate].
  destruct (copy_links _ libdir (deps c) []) as [[w2 tl]|] eqn:Ec; [|discriminate].
  destruct (relink_frame _ _ _ _ _ Er) as [Hfr1 _].
  pose proof (relink_exists plat relink_frame _ _ _ _ _ Er) as Hex1.
  destruct (copy_links_post _ _ _ _ _ _ Ec)
    as (nw & _ & Htl & _ & _ & _ & Hnd & Hx & Hfr2 & He);
    cbn [w_fs w_log app] in *; subst tl.
  assert (Hout : forall p, R p -> ~ In p nw).
  { intros p Hp Hin; destruct (Hx _ Hin) as (_ & _ & l & _ & Hj & _).
    exact (sources_outside _ _ Hp Hj). }
  assert (Hsrc2 : forall p, R p -> w_fs w2 p = fs0 p).
  { intros p Hp; rewrite Hfr2 by (apply Hout, Hp).
    rewrite Hfr1 by (apply Hnotf, Hp); apply Hsrc, Hp. }
  destruct (closure_loop n IHn nw w2 w' H0 Hsrc2 Hnd) as (Hsrc' & Hcl & Hm & Hnew).
  { intros x Hin; destruct (Hx _ Hin) as (_ & _ & l & Hl & Hj & Hcont).
    assert (HRl : R l) by (apply (deps_reach c); assumption).
    destruct (fs0 l) as [cl|] eqn:Ecl.
    - exists l, cl; repeat split; auto.
      rewrite Hcont.
      + rewrite Hfr1 by (apply Hnotf, HRl); rewrite Hsrc by exact HRl; exact Ecl.
      + intros s; apply sources_outside, HRl.
    - exfalso. destruct (Hx _ Hin) as (_ & Hp & _).
      unfold exists_ in Hp; rewrite Hcont in Hp.
      + rewrite Hfr1, Hsrc, Ecl in Hp by (try apply Hnotf; exact HRl); discriminate.
      + intros s; apply sources_outside, HRl. }
  split; [exact Hsrc'|split].
  - intros q Hq; apply Hm, He, Hq.
  - intros s Hs Hs0.
    destruct (exists_ (w_fs w2) (join libdir s)) eqn:E2; [|apply Hnew; assumption].
    destruct (in_dec (list_eq_dec string_dec) (join libdir s) nw) as [Hin|Hin].
    + rewrite <- (basename_join libdir s); apply Hcl, Hin.
    + exfalso; unfold exists_ in E2; rewrite Hfr2 in E2 by exact Hin.
      fold (exists_ fs1 (join libdir s)) in E2; rewrite Hex1 in E2; congruence.
Qed.

End Fixed.

(** Claim C1 (as amended): when the libraries of the graph have pairwise
    distinct base names, lie outside [libdir] and do not include the root,
    a walk from an empty [libdir] that returns leaves in [libdir] exactly
    one file per base name of the graph: [libdir/s] exists iff [s] is the
    base name of a library of the graph, so [libdir] holds N files. *)
Theorem relink_1_closure n (w0 w' : world content) root c0 libdir :
  w_fs w0 root = Some c0 ->
  (forall s, exists_ (w_fs w0) (join libdir s) = false) ->
  (forall p s, reach deps (w_fs w0) c0 p -> p <> join libdir s) ->
  ~ reach deps (w_fs w0) c0 root ->
  (forall p q, reach deps (w_fs w0) c0 p -> reach deps (w_fs w0) c0 q ->
               basename p = basename q -> p = q) ->
  relink_1 plat n w0 root libdir false = Ok w' ->
  forall s, exists_ (w_fs w') (join libdir s) = true <->
            exists p, reach deps (w_fs w0) c0 p /\ basename p = s.
Proof.
  intros Hroot Hempty Hout Hnr Hinj H.
  destruct (closure_post (w_fs w0) c0 libdir Hout n w0 w' root false c0 H)
    as (_ & Hdeps & Hnew); auto.
  { intros p Hp ->; contradiction. }
  assert (Hall : forall s, exists_ (w_fs w') (join libdir s) = true ->
                           vendored_closed deps (w_fs w0) c0 libdir (w_fs w') s).
  { intros s Hs; apply Hnew; [exact Hs|apply Hempty]. }
  intros s; split.
  - intros Hs; destruct (Hall s Hs) as (p & c & Hp & Hb & _); exists p; auto.
  - intros (p & Hp & <-).
    induction Hp as [p Hp|p c q Hp IHp Hc Hq].
    + apply Hdeps, Hp.
    + destruct (Hall _ IHp) as (p' & c' & Hp' & Hb & Hc' & Hq').
      assert (p' = p) by (apply Hinj; auto); subst p'.
      rewrite Hc in Hc'; inversion Hc'; subst c'.
      apply Hq', Hq.
Qed.

End Closure.

(** A graph read from [fs0] stays inside a finite list [U] of paths when [U]
    holds the root's references and the references of each of its files. *)
Lemma reach_within {content : Type} (deps : content -> list path) fs0 c0
    (U : list path) :
  forallb (fun q => existsb (path_eqb q) U) (deps c0) = true ->
  forallb (fun p => match fs0 p with
                    | Some c => forallb (fun q => existsb (path_eqb q) U) (deps c)
                    | None => true
                    end) U = true ->
  forall p, reach deps fs0 c0 p -> In p U.
Proof.
  intros H0 H1 p Hp.
  assert (Hin : forall q, existsb (path_eqb q) U = true -> In q U).
  { intros q Hq; apply existsb_exists in Hq; destruct Hq as (u & Hu & E).
    apply path_eqb_true in E; subst; exact Hu. }
  induction Hp as [p Hp|p c q Hp IHp Hc Hq].
  - rewrite forallb_forall in H0; apply Hin, H0, Hp.
  - rewrite forallb_forall in H1; specialize (H1 _ IHp); rewrite Hc in H1.
    rewrite forallb_forall in H1; apply Hin, H1, Hq.
Qed.

(** Counterexample to C1 as stated: two different libraries named
    [libX.so] (the second needing [libY.so]) give a graph with the two base
    names [libX.so] and [libY.so]; the walk copies the first [libX.so],
    treats the second as already vendored and never looks at [libY.so], so
    [libdir] ends with exactly one file, not two. *)
Lemma relink_1_name_collision :
  let r := relink_1 Toy.plat_ldd 10 (Toy.start Toy.collision_files) Toy.main
             Toy.libdir false in
  let c_main : Toy.content := [["a"; "libX.so"]; ["b"; "libX.so"]] in
  reach (fun c : Toy.content => c) (Toy.mk Toy.collision_files) c_main
    ["a"; "libX.so"] /\
  reach (fun c : Toy.content => c) (Toy.mk Toy.collision_files) c_main
    ["c"; "libY.so"] /\
  r = Ok (Toy.final r) /\
  (forall s, exists_ (w_fs (Toy.final r)) (join Toy.libdir s) = true <->
             s = "libX.so").
Proof.
  intros r c_main.
  assert (Hr : r = Ok (Toy.final r)) by (vm_compute; reflexivity).
  split; [apply reach_direct; simpl; auto|].
  split.
  { apply (reach_step _ _ _ ["b"; "libX.so"] [["c"; "libY.so"]]);
      [apply reach_direct; simpl; auto|reflexivity|simpl; auto]. }
  split; [exact Hr|].
  intros s; split.
  - intros Hs.
    pose proof (relink_1_new_copied Toy.plat_ldd ToyFacts2.toy_relink_frame
                  _ _ _ _ _ _ _ Hr Hs) as Hc.
    assert (Hc' : In (join Toy.libdir s) [Toy.libdir ++ ["libX.so"]]).
    { apply Hc; vm_compute; reflexivity. }
    destruct Hc' as [E|[]]; injection E; auto.
  - intros ->; vm_compute; reflexivity.
Qed.

(** Witness of C1: on the graph [main -> libA, libB], [libA -> libC],
    [libC -> libA] the walk leaves exactly [libA.so], [libB.so] and
    [libC.so] in [libdir]. *)
Lemma relink_1_closure_witness :
  let r := relink_1 Toy.plat_ldd 10 (Toy.start Toy.tree_files) Toy.main
             Toy.libdir false in
  let c_main : Toy.content := [["opt"; "libA.so"]; ["opt"; "libB.so"]] in
  r = Ok (Toy.final r) /\
  forall s, exists_ (w_fs (Toy.final r)) (join Toy.libdir s) = true <->
            exists p, reach (fun c : Toy.content => c)
                        (w_fs (Toy.start Toy.tree_files)) c_main p /\
                      basename p = s.
Proof.
  intros r c_main.
  assert (Hr : r = Ok (Toy.final r)) by (vm_compute; reflexivity).
  split; [exact Hr|].
  assert (HU : forall p, reach (fun c : Toy.content => c)
                 (w_fs (Toy.start Toy.tree_files)) c_main p ->
               In p [["opt"; "libA.so"]; ["opt"; "libB.so"]; ["opt"; "libC.so"]]).
  { apply reach_within; vm_compute; reflexivity. }
  apply (relink_1_closure Toy.plat_ldd (fun c : Toy.content => c)
           ToyFacts2.toy_relink_frame ToyFacts2.toy_ldd_deps 10
           (Toy.start Toy.tree_files) (Toy.final r) Toy.main c_main Toy.libdir).
  - reflexivity.
  - intros s; vm_compute; reflexivity.
  - intros p s Hp; apply HU in Hp.
    destruct Hp as [<-|[<-|[<-|[]]]]; discriminate.
  - intros Hp; apply HU in Hp.
    destruct Hp as [E|[E|[E|[]]]]; discriminate E.
  - intros p q Hp Hq E; apply HU in Hp; apply HU in Hq.
    destruct Hp as [<-|[<-|[<-|[]]]]; destruct Hq as [<-|[<-|[<-|[]]]];
      try reflexivity; discriminate E.
  - exact Hr.
Defined.

(** ** The link inspectors and the relinkers *)

Lemma mem_false x l : mem x l = false -> ~ In x l.
Proof.
  unfold mem; intros H Hin.
  assert (existsb (String.eqb x) l = true)
    by (apply existsb_exists; exists x; split; [exact Hin|apply String.eqb_refl]).
  congruence.
Qed.

(** A line that is neither matched nor skipped makes the loop raise, whatever
    the lines around it. *)
Lemma linux_linked_lines_unexpected ignored lines line :
  In line lines -> ldd_match (strip line) = None ->
  ldd_skipped (strip line) = false ->
  linux_linked_lines ignored lines = None.
Proof.
  induction lines as [|l ls IH]; intros Hin Hm Hs; [destruct Hin|].
  destruct Hin as [<-|Hin]; simpl.
  - rewrite Hm, Hs; reflexivity.
  - destruct (ldd_match (strip l)); [rewrite IH by assumption; reflexivity|].
    destruct (ldd_skipped (strip l)); [apply IH|]; auto.
Qed.

Lemma linux_linked_lines_result ignored lines res :
  linux_linked_lines ignored lines = Some res ->
  forall p, In p res ->
    ~ In p ignored /\ exists line, In line lines /\ ldd_match (strip line) = Some p.
Proof.
  revert res; induction lines as [|l ls IH]; intros res H p Hp; simpl in H.
  - inversion H; subst; destruct Hp.
  - destruct (ldd_match (strip l)) as [m|] eqn:Em.
    + destruct (linux_linked_lines ignored ls) as [r|] eqn:Er; [|discriminate].
      inversion H; subst; clear H.
      destruct (mem m ignored) eqn:Emem.
      * destruct (IH _ eq_refl p Hp) as (Hni & line & Hl & Hml).
        split; [exact Hni|exists line; split; [right; exact Hl|exact Hml]].
      * destruct Hp as [<-|Hp].
        -- split; [apply mem_false, Emem|exists l; split; [left|]; auto].
        -- destruct (IH _ eq_refl p Hp) as (Hni & line & Hl & Hml).
           split; [exact Hni|exists line; split; [right; exact Hl|exact Hml]].
    + destruct (ldd_skipped (strip l)); [|discriminate].
      destruct (IH _ H p Hp) as (Hni & line & Hl & Hml).
      split; [exact Hni|exists line; split; [right; exact Hl|exact Hml]].
Qed.

Lemma darwin_linked_lines_unexpected filename isfile lines line :
  In line lines -> otool_match line = None ->
  darwin_linked_lines filename isfile lines = None.
Proof.
  induction lines as [|l ls IH]; intros Hin Hm; [destruct Hin|].
  destruct Hin as [<-|Hin]; simpl; [rewrite Hm; reflexivity|].
  destruct (otool_match l); [rewrite IH by assumption|]; reflexivity.
Qed.

Lemma darwin_linked_lines_result filename isfile lines res :
  darwin_linked_lines filename isfile lines = Some res ->
  forall p, In p res -> p <> filename /\ isfile p = true.
Proof.
  revert res; induction lines as [|l ls IH]; intros res H p Hp; simpl in H.
  - inversion H; subst; destruct Hp.
  - destruct (otool_match l) as [m|]; [|discriminate].
    destruct (darwin_linked_lines filename isfile ls) as [r|]; [|discriminate].
    inversion H; subst; clear H.
    destruct (String.eqb m filename) eqn:E1; [apply (IH _ eq_refl p Hp)|].
    destruct (isfile m) eqn:E2; [|apply (IH _ eq_refl p Hp)].
    destruct Hp as [<-|Hp]; [|apply (IH _ eq_refl p Hp)].
    split; [apply String.eqb_neq, E1|exact E2].
Qed.

Lemma darwin_linked_result filename out isfile res :
  darwin_linked filename out isfile = Some res ->
  forall p, In p res -> p <> filename /\ isfile p = true.
Proof.
  unfold darwin_linked; destruct (splitlines out) as [|header ls]; [discriminate|].
  destruct (String.eqb header (String.append filename ":")); [|discriminate].
  apply darwin_linked_lines_result.
Qed.

(** Text lemmas for a line [name => not found]. *)

Definition no_ws (s : string) : bool :=
  forallb (fun c => negb (is_ws c)) (list_ascii_of_string s).

Lemma span_nonspace_app name r :
  no_ws name = true -> span_nonspace (String.append name (String " " r)) = (name, String " " r).
Proof.
  induction name as [|c name IH]; intros H; [reflexivity|].
  simpl in H |- *; apply andb_prop in H; destruct H as [Hc H].
  rewrite IH by exact H.
  destruct (Ascii.eqb c " ") eqn:E; [|reflexivity].
  apply Ascii.eqb_eq in E; subst; compute in Hc; discriminate Hc.
Qed.

Lemma prefix_app_space p name r :
  no_ws p = true -> no_ws name = true ->
  prefix p (String.append name (String " " r)) = prefix p name.
Proof.
  revert name; induction p as [|c p IH]; intros name Hp Hn; [destruct name; reflexivity|].
  simpl in Hp; apply andb_prop in Hp; destruct Hp as [Hc Hp].
  destruct name as [|d name]; simpl.
  - destruct (ascii_dec c " ") as [->|Hne]; [compute in Hc; discriminate Hc|reflexivity].
  - simpl in Hn; apply andb_prop in Hn; destruct Hn as [_ Hn].
    destruct (ascii_dec c d); [apply IH; assumption|reflexivity].
Qed.



Lemma list_ascii_of_string_append a b :
  list_ascii_of_string (String.append a b) = list_ascii_of_string a ++ list_ascii_of_string b.
Proof. induction a as [|c a IH]; simpl; [reflexivity|rewrite IH; reflexivity]. Qed.

Lemma drop_ws_no_ws c l : is_ws c = false -> drop_ws (c :: l) = c :: l.
Proof. simpl; intros ->; reflexivity. Qed.

Lemma no_ws_cons c s : no_ws (String c s) = true -> is_ws c = false /\ no_ws s = true.
Proof.
  unfold no_ws; cbn [list_ascii_of_string forallb]; intros H.
  apply andb_prop in H; destruct H as [H1 H2]; split; [apply negb_true_iff, H1|exact H2].
Qed.

Lemma prefix_cons a b s1 s2 :
  prefix (String a s1) (String b s2) = true -> a = b /\ prefix s1 s2 = true.
Proof. simpl; destruct (ascii_dec a b); [auto|discriminate]. Qed.

Lemma prefix_space_app p q name r :
  no_ws p = true -> no_ws name = true ->
  prefix (String.append p (String " " q)) (String.append name (String " " r)) = true ->
  p = name.
Proof.
  revert name; induction p as [|c p IH]; intros name Hp Hn H;
    destruct name as [|d name]; cbn [String.append] in H; try reflexivity.
  - apply prefix_cons in H; destruct H as [<- _].
    apply no_ws_cons in Hn; destruct Hn as [Hd _]; discriminate Hd.
  - apply prefix_cons in H; destruct H as [-> _].
    apply no_ws_cons in Hp; destruct Hp as [Hc _]; discriminate Hc.
  - apply prefix_cons in H; destruct H as [<- H].
    apply no_ws_cons in Hp; apply no_ws_cons in Hn.
    f_equal; apply IH; [apply Hp|apply Hn|exact H].
Qed.

Lemma string_append_assoc a b c :
  String.append (String.append a b) c = String.append a (String.append b c).
Proof. induction a as [|x a IH]; simpl; [reflexivity|rewrite IH; reflexivity]. Qed.

(** [str.strip()] of a line with one leading blank and non-blank ends. *)
Lemma strip_blank_line (t c d : ascii) (m : string) :
  is_ws t = true -> is_ws c = false -> is_ws d = false ->
  strip (String t (String c (String.append m (String d "")))) =
  String c (String.append m (String d "")).
Proof.
  intros Ht Hc Hd; unfold strip.
  cbn [list_ascii_of_string drop_ws]; rewrite Ht, Hc.
  rewrite list_ascii_of_string_append; cbn [list_ascii_of_string].
  cbn [rev]; rewrite rev_app_distr; cbn [rev app drop_ws]; rewrite Hd.
  cbn [rev]; rewrite rev_app_distr, rev_involutive; cbn [rev app].
  replace (list_ascii_of_string m ++ [d])
    with (list_ascii_of_string (String.append m (String d "")))
    by (rewrite list_ascii_of_string_append; reflexivity).
  cbn [string_of_list_ascii]; rewrite string_of_list_ascii_of_string; reflexivity.
Qed.

Lemma strip_not_found name :
  name <> "" -> no_ws name = true ->
  strip (String "009" (String.append name " => not found")) =
  String.append name " => not found".
Proof.
  intros Hne Hn.
  destruct name as [|c name']; [congruence|].
  apply no_ws_cons in Hn; destruct Hn as [Hc _].
  replace (String.append (String c name') " => not found")
    with (String c (String.append (String.append name' " => not foun") (String "d" "")))
    by (rewrite string_append_assoc; reflexivity).
  apply strip_blank_line; [reflexivity|exact Hc|reflexivity].
Qed.

Lemma not_found_unexpected name :
  name <> "" -> no_ws name = true -> name <> "linux-vdso.so.1" ->
  prefix "/lib/ld-linux-" name = false -> prefix "/lib64/ld-linux-" name = false ->
  ldd_match (String.append name " => not found") = None /\
  ldd_skipped (String.append name " => not found") = false.
Proof.
  intros Hne Hn Hv H1 H2.
  change " => not found" with (String " " "=> not found").
  split.
  - unfold ldd_match; rewrite span_nonspace_app by exact Hn.
    destruct (String.eqb name "") eqn:E; [apply String.eqb_eq in E; congruence|].
    reflexivity.
  - unfold ldd_skipped.
    rewrite (prefix_app_space "/lib/ld-linux-") by (reflexivity || exact Hn).
    rewrite (prefix_app_space "/lib64/ld-linux-") by (reflexivity || exact Hn).
    rewrite H1, H2, !orb_false_r.
    destruct (prefix "linux-vdso.so.1 " (String.append name (String " " "=> not found")))
      eqn:E.
    + exfalso; apply Hv; symmetry.
      apply (prefix_space_app "linux-vdso.so.1" "" name "=> not found");
        [reflexivity|exact Hn|exact E].
    + rewrite orb_false_r.
      apply String.eqb_neq; intros Heq.
      assert (Hs := f_equal span_nonspace Heq).
      rewrite span_nonspace_app in Hs by exact Hn.
      discriminate Hs.
Qed.

Lemma filter_map_none {A B} (f : B -> bool) (g : A -> B) l :
  (forall x, f (g x) = false) -> filter f (map g l) = [].
Proof. intros H; induction l as [|x l IH]; simpl; [|rewrite H]; auto. Qed.

Lemma filter_map_all {A B} (f : B -> bool) (g : A -> B) l :
  (forall x, f (g x) = true) -> filter f (map g l) = map g l.
Proof. intros H; induction l as [|x l IH]; simpl; [|rewrite H, IH]; auto. Qed.

Lemma filter_app_length {A} (f : A -> bool) l1 l2 :
  length (filter f (l1 ++ l2)) = length (filter f l1) + length (filter f l2).
Proof. rewrite filter_app, length_app; reflexivity. Qed.

(** X23: every path [_linux_linked] returns is the target of an arrow line
    [name => path (address)] of [ldd] and is not in [_libc6_links()]; a line
    that is not an arrow line and is [statically linked], a vdso line or a
    loader line [/lib/ld-linux-...], [/lib64/ld-linux-...] contributes
    nothing. *)
Theorem linux_linked_excludes :
  (forall dpkg_out ldd_out res,
     linux_linked dpkg_out ldd_out = Some res ->
     forall p, In p res ->
       ~ In p (libc6_links dpkg_out) /\
       exists line, In line (splitlines ldd_out) /\ ldd_match (strip line) = Some p) /\
  (forall ignored l ls,
     ldd_match (strip l) = None -> ldd_skipped (strip l) = true ->
     linux_linked_lines ignored (l :: ls) = linux_linked_lines ignored ls).
Proof.
  split.
  - intros dpkg_out ldd_out res H; exact (linux_linked_lines_result _ _ _ H).
  - intros ignored l ls Hm Hs; simpl; rewrite Hm, Hs; reflexivity.
Qed.

(** C5 fails on this input: when [ldd] prints the dynamic loader in
    arrow form, it is returned (and so vendored), although it is a file of
    [libc6]: [_libc6_links()] keeps only paths under [/lib/], not the
    [/lib64/ld-linux-x86-64.so.2] of the listing. *)
Lemma linux_linked_arrow_loader :
  In "/lib64/ld-linux-x86-64.so.2" (splitlines Fixtures.dpkg_amd64) /\
  linux_linked Fixtures.dpkg_amd64 Fixtures.ldd_loader_arrow =
    Some ["/lib64/ld-linux-x86-64.so.2"].
Proof. split; [simpl; auto 4|vm_compute; reflexivity]. Qed.

(** Witness of X23: the aarch64 [ldd] output of the tests keeps [libexpat]
    and [libz], drops [libm] and [libc] (in the [libc6] listing) and the
    vdso and loader lines. *)
Lemma linux_linked_excludes_witness :
  linux_linked Fixtures.dpkg_aarch64 Fixtures.ldd_aarch64 =
    Some ["/lib/aarch64-linux-gnu/libexpat.so.1"; "/lib/aarch64-linux-gnu/libz.so.1"] /\
  ~ In "/lib/aarch64-linux-gnu/libz.so.1" (libc6_links Fixtures.dpkg_aarch64) /\
  linux_linked_lines [] [String.append Fixtures.TAB "linux-vdso.so.1 (0x0000ffff9f326000)"] =
    linux_linked_lines [] [].
Proof.
  assert (H : linux_linked Fixtures.dpkg_aarch64 Fixtures.ldd_aarch64 =
    Some ["/lib/aarch64-linux-gnu/libexpat.so.1"; "/lib/aarch64-linux-gnu/libz.so.1"])
    by (vm_compute; reflexivity).
  split; [exact H|split].
  - apply (proj1 (proj1 linux_linked_excludes _ _ _ H _ (or_intror (or_introl eq_refl)))).
  - apply (proj2 linux_linked_excludes); vm_compute; reflexivity.
Defined.

(** Claim C6: an [ldd] line that is neither an arrow line nor skipped, an
    [otool -L] output whose first line is not [filename:] (or that is
    empty), or a later [otool -L] line that does not match, makes the
    inspector raise; an inspector that raises makes the walk raise, and a
    nested walk that raises stops the loop of its caller. *)
Theorem inspectors_fail_loudly :
  (forall dpkg_out ldd_out line,
     In line (splitlines ldd_out) -> ldd_match (strip line) = None ->
     ldd_skipped (strip line) = false -> linux_linked dpkg_out ldd_out = None) /\
  (forall filename out isfile,
     (forall header ls, splitlines out = header :: ls ->
        header <> String.append filename ":") ->
     darwin_linked filename out isfile = None) /\
  (forall filename out isfile line,
     In line (tl (splitlines out)) -> otool_match line = None ->
     darwin_linked filename out isfile = None) /\
  (forall content (plat : Platform content) n w f libdir b,
     linked plat (w_fs w) f = None -> relink_1 plat (S n) w f libdir b = Raised) /\
  (forall content (k : world content -> path -> outcome content) w x l,
     k w x = Raised -> for_each k w (x :: l) = Raised).
Proof.
  split; [|split; [|split; [|split]]].
  - intros dpkg_out ldd_out line Hin Hm Hs; unfold linux_linked.
    exact (linux_linked_lines_unexpected _ _ _ Hin Hm Hs).
  - intros filename out isfile H; unfold darwin_linked.
    destruct (splitlines out) as [|header ls]; [reflexivity|].
    destruct (String.eqb header (String.append filename ":")) eqn:E; [|reflexivity].
    apply String.eqb_eq in E; exfalso; exact (H _ _ eq_refl E).
  - intros filename out isfile line Hin Hm; unfold darwin_linked.
    destruct (splitlines out) as [|header ls]; [reflexivity|].
    destruct (String.eqb header (String.append filename ":")); [|reflexivity].
    exact (darwin_linked_lines_unexpected _ _ _ _ Hin Hm).
  - intros content plat n w f libdir b H; simpl; rewrite H; reflexivity.
  - intros content k w x l H; simpl; rewrite H; reflexivity.
Qed.

(** Witness of C6 on sample outputs. *)
Lemma inspectors_fail_loudly_witness :
  linux_linked Fixtures.dpkg_amd64 Fixtures.ldd_garbage = None /\
  darwin_linked Fixtures.libssl (Fixtures.otool_lines Fixtures.so) Fixtures.isfile = None /\
  darwin_linked Fixtures.so
    (Fixtures.text [String.append Fixtures.so ":"; "garbage"]) Fixtures.isfile = None /\
  relink_1 Toy.plat 1 (Toy.start []) Toy.main Toy.libdir false = Raised /\
  for_each (fun (w : world Toy.content) (_ : path) => Raised) (Toy.start []) [Toy.main] =
    Raised.
Proof.
  destruct inspectors_fail_loudly as (H1 & H2 & H3 & H4 & H5).
  split; [|split; [|split; [|split]]].
  - apply (H1 _ _ (String.append Fixtures.TAB "some unexpected output"));
      vm_compute; [auto|reflexivity|reflexivity].
  - apply H2; intros header ls E Hh; vm_compute in E; injection E as E _.
    subst header; vm_compute in Hh; discriminate Hh.
  - apply (H3 _ _ _ "garbage"); vm_compute; [auto|reflexivity].
  - apply H4; reflexivity.
  - apply H5; reflexivity.
Defined.

(** Claim C7: [_darwin_linked(filename)] never returns [filename]. *)
Theorem darwin_linked_drops_self filename out isfile res :
  darwin_linked filename out isfile = Some res -> ~ In filename res.
Proof.
  intros H Hin; exact (proj1 (darwin_linked_result _ _ _ _ H _ Hin) eq_refl).
Qed.

(** Witness of C7: [otool -L] on [libssl] lists [libssl] itself. *)
Lemma darwin_linked_drops_self_witness :
  darwin_linked Fixtures.libssl (Fixtures.otool_lines Fixtures.libssl) Fixtures.isfile =
    Some [Fixtures.libcrypto] /\
  ~ In Fixtures.libssl [Fixtures.libcrypto].
Proof.
  assert (H : darwin_linked Fixtures.libssl (Fixtures.otool_lines Fixtures.libssl)
                Fixtures.isfile = Some [Fixtures.libcrypto]) by (vm_compute; reflexivity).
  split; [exact H|exact (darwin_linked_drops_self _ _ _ _ H)].
Defined.

(** Counterexample to C8 as stated: on Linux a reference [ldd] cannot
    resolve ([libfoo.so.1 => not found]) is not filtered out: the line is
    unexpected and [_linux_linked] raises. *)
Lemma linux_linked_not_found_raises :
  linux_linked Fixtures.dpkg_amd64 Fixtures.ldd_not_found = None.
Proof. vm_compute; reflexivity. Qed.

(** Claim C8 (as amended): every path [_darwin_linked] returns satisfies
    [os.path.isfile]; [_linux_linked] makes no such check, and a line
    [TAB name => not found] of [ldd] makes it raise whenever [name] is
    non-empty, has no blank, is not [linux-vdso.so.1] and does not start
    with [/lib/ld-linux-] or [/lib64/ld-linux-]. *)
Theorem inspected_paths_on_disk :
  (forall filename out isfile res,
     darwin_linked filename out isfile = Some res ->
     forall p, In p res -> isfile p = true) /\
  (forall dpkg_out ldd_out name,
     In (String "009" (String.append name " => not found")) (splitlines ldd_out) ->
     name <> "" -> no_ws name = true -> name <> "linux-vdso.so.1" ->
     prefix "/lib/ld-linux-" name = false -> prefix "/lib64/ld-linux-" name = false ->
     linux_linked dpkg_out ldd_out = None).
Proof.
  split.
  - intros filename out isfile res H p Hp; exact (proj2 (darwin_linked_result _ _ _ _ H _ Hp)).
  - intros dpkg_out ldd_out name Hin Hne Hn Hv H1 H2.
    destruct (not_found_unexpected name Hne Hn Hv H1 H2) as [Hm Hs].
    unfold linux_linked; apply (linux_linked_lines_unexpected _ _ _ Hin);
      rewrite strip_not_found by assumption; assumption.
Qed.

(** Witness of C8: the Darwin output of the tests drops
    [/usr/lib/libSystem.B.dylib], which is not on disk; the Linux output
    with [libfoo.so.1 => not found] raises. *)
Lemma inspected_paths_on_disk_witness :
  Fixtures.isfile Fixtures.libcrypto = true /\
  linux_linked Fixtures.dpkg_amd64 Fixtures.ldd_not_found = None.
Proof.
  destruct inspected_paths_on_disk as [H1 H2]; split.
  - apply (H1 Fixtures.so (Fixtures.otool_lines Fixtures.so) Fixtures.isfile
             [Fixtures.libssl; Fixtures.libcrypto]); [vm_compute; reflexivity|simpl; auto].
  - apply (H2 _ _ "libfoo.so.1"); vm_compute; try reflexivity; try discriminate.
    auto.
Defined.

(** Counterexample to C9 as stated: a Linux library with two references is
    relinked by one [patchelf] call, which sets the rpath. *)
Lemma linux_relink_single_call :
  linux_linked Fixtures.dpkg_aarch64 Fixtures.ldd_aarch64 =
    Some ["/lib/aarch64-linux-gnu/libexpat.so.1"; "/lib/aarch64-linux-gnu/libz.so.1"] /\
  linux_relink_cmds ["t"; "lib"; "python3.8"; "lib-dynload"; "pyexpat.so"] ["t"; "lib"] false =
    [["patchelf"; "--force-rpath"; "--set-rpath"; "$ORIGIN/../.."; 
      "/t/lib/python3.8/lib-dynload/pyexpat.so"]].
Proof. split; vm_compute; reflexivity. Qed.

(** Claim C9 (as amended): on Darwin the relinker runs
    [install_name_tool -change] once per reference [_darwin_linked] returns,
    each changing that one path, [install_name_tool -id] once when
    [set_name] holds, and [codesign] once; on Linux it runs one [patchelf]
    call whatever the references and [set_name]. *)
Theorem relink_invocations :
  (forall filename libdir set_name links,
     let cmds := darwin_relink_cmds filename libdir set_name links in
     invocations "install_name_tool" "-change" cmds = length links /\
     map (fun cmd => nth 2 cmd "")
       (filter (is_invocation "install_name_tool" "-change") cmds) = map render links /\
     invocations "install_name_tool" "-id" cmds = (if set_name then 1 else 0) /\
     invocations "codesign" "--force" cmds = 1 /\
     length cmds = (if set_name then 1 else 0) + length links + 1) /\
  (forall filename libdir set_name,
     let cmds := linux_relink_cmds filename libdir set_name in
     length cmds = 1 /\ invocations "patchelf" "--force-rpath" cmds = 1).
Proof.
  split.
  - intros filename libdir set_name links cmds; unfold cmds, darwin_relink_cmds,
      invocations.
    rewrite !filter_app.
    rewrite (filter_map_none (is_invocation "install_name_tool" "-id")),
      (filter_map_none (is_invocation "codesign" "--force")),
      (filter_map_all (is_invocation "install_name_tool" "-change"))
      by reflexivity.
    rewrite !length_app, !length_map.
    destruct set_name; cbn; repeat split; try lia;
      rewrite app_nil_r, map_map; reflexivity.
  - intros filename libdir set_name cmds; split; reflexivity.
Qed.

(** * Further properties of the build steps *)
Lemma digit_val_char (k : Z) :
  (0 <= k < 10)%Z -> digit_val (ascii_of_nat (48 + Z.to_nat k)) = Some k.
Proof.
  intros Hk; unfold digit_val.
  rewrite nat_ascii_embedding by lia.
  replace (Nat.leb 48 (48 + Z.to_nat k) && Nat.leb (48 + Z.to_nat k) 57)%bool with true.
  - f_equal; rewrite Nat.add_comm, Nat.add_sub; apply Z2Nat.id; lia.
  - symmetry; apply andb_true_iff; split; apply Nat.leb_le; lia.
Qed.

Lemma dec_digits_S f n acc :
  dec_digits (S f) n acc =
  let acc' := String (ascii_of_nat (48 + Z.to_nat (n mod 10))) acc in
  if (n <? 10)%Z then acc' else dec_digits f (n / 10) acc'.
Proof. reflexivity. Qed.

Lemma dec_digits_parse f (n : Z) acc b :
  (0 <= n < 2 ^ Z.of_nat (S f))%Z ->
  digits_go (dec_digits (S f) n acc) 0 b = digits_go acc n false.
Proof.
  revert n acc b; induction f as [|f IH]; intros n acc b Hn.
  - cbn [dec_digits]. assert (n < 10)%Z by (simpl in Hn; lia).
    replace (n <? 10)%Z with true by (symmetry; apply Z.ltb_lt; lia).
    cbn [digits_go]; rewrite digit_val_char by (apply Z.mod_pos_bound; lia).
    rewrite Z.mod_small by lia. f_equal; lia.
  - rewrite dec_digits_S; cbv zeta; destruct (n <? 10)%Z eqn:E.
    + apply Z.ltb_lt in E.
      cbn [digits_go]; rewrite digit_val_char by (apply Z.mod_pos_bound; lia).
      rewrite Z.mod_small by lia. f_equal; lia.
    + apply Z.ltb_ge in E.
      rewrite IH.
      * cbn [digits_go]; rewrite digit_val_char by (apply Z.mod_pos_bound; lia).
        f_equal. pose proof (Z.div_mod n 10); lia.
      * split; [apply Z.div_pos; lia|].
        rewrite Nat2Z.inj_succ, Z.pow_succ_r in Hn by lia.
        apply Z.div_lt_upper_bound; lia.
Qed.

Lemma dec_digits_chars f n acc :
  forallb is_digit (list_ascii_of_string acc) = true ->
  (0 <= n)%Z ->
  forallb is_digit (list_ascii_of_string (dec_digits f n acc)) = true.
Proof.
  revert n acc; induction f as [|f IH]; intros n acc Hacc Hn; [exact Hacc|].
  rewrite dec_digits_S; cbv zeta.
  assert (Hd : forallb is_digit (list_ascii_of_string
            (String (ascii_of_nat (48 + Z.to_nat (n mod 10))) acc)) = true).
  { cbn [list_ascii_of_string forallb]; rewrite Hacc, andb_true_r.
    unfold is_digit; rewrite digit_val_char by (apply Z.mod_pos_bound; lia); reflexivity. }
  destruct (n <? 10)%Z; [exact Hd|apply IH; [exact Hd|apply Z.div_pos; lia]].
Qed.

Lemma dec_digits_head f n acc :
  exists d r, dec_digits (S f) n acc = String d r /\ is_digit d = true.
Proof.
  revert n acc; induction f as [|f IH]; intros n acc; rewrite dec_digits_S; cbv zeta.
  - destruct (n <? 10)%Z; (eexists; eexists; split; [reflexivity|]);
      unfold is_digit; rewrite digit_val_char by (apply Z.mod_pos_bound; lia); reflexivity.
  - destruct (n <? 10)%Z; [|apply IH].
    eexists; eexists; split; [reflexivity|].
    unfold is_digit; rewrite digit_val_char by (apply Z.mod_pos_bound; lia); reflexivity.
Qed.

Lemma digit_not_ws c : is_digit c = true -> is_ws c = false.
Proof.
  unfold is_digit, digit_val, is_ws; generalize (nat_of_ascii c); intros n.
  destruct (Nat.leb 48 n && Nat.leb n 57)%bool eqn:E; [intros _|discriminate].
  apply andb_true_iff in E as [E1 E2]; apply Nat.leb_le in E1, E2.
  repeat match goal with
         | |- context [Nat.eqb ?a ?b] => destruct (Nat.eqb_spec a b)
         | |- context [Nat.leb ?a ?b] => destruct (Nat.leb_spec a b)
         end; simpl; try reflexivity; exfalso; lia.
Qed.

Lemma drop_ws_all_nonws l :
  forallb (fun c => negb (is_ws c)) l = true -> drop_ws l = l.
Proof.
  destruct l as [|c l]; [reflexivity|]; cbn [forallb drop_ws].
  destruct (is_ws c); [discriminate|reflexivity].
Qed.

Lemma strip_no_ws s : no_ws s = true -> strip s = s.
Proof.
  unfold no_ws, strip; intros H.
  rewrite (drop_ws_all_nonws _ H).
  rewrite drop_ws_all_nonws.
  - rewrite rev_involutive; apply string_of_list_ascii_of_string.
  - apply forallb_forall; intros c Hc; apply in_rev in Hc.
    exact (proj1 (forallb_forall _ _) H c Hc).
Qed.

Lemma digits_no_ws s : forallb is_digit (list_ascii_of_string s) = true -> no_ws s = true.
Proof.
  unfold no_ws; intros H; apply forallb_forall; intros c Hc.
  apply negb_true_iff, digit_not_ws; exact (proj1 (forallb_forall _ _) H c Hc).
Qed.

Lemma log2_fuel (n : Z) : (0 <= n)%Z -> (0 <= n < 2 ^ Z.of_nat (S (Z.to_nat (Z.log2 n))))%Z.
Proof.
  intros Hn; destruct (Z.eq_dec n 0) as [->|Hne]; [simpl; lia|].
  destruct (Z.log2_spec n) as [_ H2]; [lia|].
  rewrite Nat2Z.inj_succ, Z2Nat.id by apply Z.log2_nonneg; lia.
Qed.

Lemma int_of_str_digit s d r :
  strip s = String d r -> is_digit d = true ->
  int_of_str s = digits_go (String d r) 0 true.
Proof.
  intros Hs Hd; unfold int_of_str; rewrite Hs.
  destruct d as [b0 b1 b2 b3 b4 b5 b6 b7];
    destruct b0, b1, b2, b3, b4, b5, b6, b7; try reflexivity;
    vm_compute in Hd; discriminate.
Qed.

Lemma int_of_z_str z : int_of_str (z_str z) = Some z.
Proof.
  unfold z_str; destruct (z <? 0)%Z eqn:E.
  - apply Z.ltb_lt in E.
    assert (Hch : forallb is_digit (list_ascii_of_string
                    (dec_digits (S (Z.to_nat (Z.log2 (- z)))) (- z) "")) = true)
      by (apply dec_digits_chars; [reflexivity|lia]).
    unfold int_of_str; rewrite strip_no_ws.
    + cbv beta iota.
      rewrite dec_digits_parse by (apply log2_fuel; lia).
      simpl; f_equal; lia.
    + unfold no_ws; cbn [list_ascii_of_string forallb].
      apply andb_true_iff; split; [reflexivity|]; apply digits_no_ws, Hch.
  - apply Z.ltb_ge in E.
    destruct (dec_digits_head (Z.to_nat (Z.log2 z)) z "") as (d & r & Heq & Hd).
    assert (Hch : forallb is_digit (list_ascii_of_string
                    (dec_digits (S (Z.to_nat (Z.log2 z))) z "")) = true)
      by (apply dec_digits_chars; [reflexivity|lia]).
    rewrite (int_of_str_digit _ d r); [| |exact Hd].
    + rewrite <- Heq, dec_digits_parse by (apply log2_fuel; lia); reflexivity.
    + rewrite strip_no_ws; [exact Heq|apply digits_no_ws, Hch].
Qed.


Lemma digits_lacks c s :
  forallb is_digit (list_ascii_of_string s) = true -> is_digit c = false -> lacks c s = true.
Proof.
  unfold lacks; intros H Hc; apply forallb_forall; intros d Hd.
  apply negb_true_iff; destruct (Ascii.eqb_spec d c) as [->|]; [|reflexivity].
  rewrite (proj1 (forallb_forall _ _) H c Hd) in Hc; discriminate.
Qed.

Lemma z_str_lacks c z :
  is_digit c = false -> Ascii.eqb c "-" = false -> lacks c (z_str z) = true.
Proof.
  intros Hc Hm; unfold z_str; destruct (z <? 0)%Z eqn:E;
    [apply Z.ltb_lt in E|apply Z.ltb_ge in E].
  - unfold lacks; cbn [list_ascii_of_string forallb]; apply andb_true_iff; split.
    + rewrite Ascii.eqb_sym, Hm; reflexivity.
    + apply (digits_lacks c); [apply dec_digits_chars; [reflexivity|lia]|exact Hc].
  - apply digits_lacks; [apply dec_digits_chars; [reflexivity|lia]|exact Hc].
Qed.

Lemma lacks_cons c d s : lacks c (String d s) = true -> Ascii.eqb d c = false /\ lacks c s = true.
Proof.
  unfold lacks; cbn [list_ascii_of_string forallb]; intros H.
  apply andb_true_iff in H as [H1 H2]; apply negb_true_iff in H1; auto.
Qed.

Lemma split_on_app c s t :
  lacks c s = true -> split_on c (String.append s (String c t)) = s :: split_on c t.
Proof.
  induction s as [|d s IH]; intros H.
  - cbn [String.append split_on]; rewrite Ascii.eqb_refl; reflexivity.
  - apply lacks_cons in H as [H1 H2].
    cbn [String.append split_on]; rewrite IH by exact H2; rewrite H1; reflexivity.
Qed.

Lemma split_on_lacks c s : lacks c s = true -> split_on c s = [s].
Proof.
  induction s as [|d s IH]; intros H; [reflexivity|].
  apply lacks_cons in H as [H1 H2].
  cbn [split_on]; rewrite IH by exact H2; rewrite H1; reflexivity.
Qed.

Lemma split_on_length c s : length (split_on c s) = S (str_count c s).
Proof.
  unfold str_count; induction s as [|d s IH]; [reflexivity|].
  cbn [split_on list_ascii_of_string filter].
  destruct (Ascii.eqb d c); cbn [length]; [rewrite IH; reflexivity|].
  destruct (split_on c s); [discriminate|exact IH].
Qed.

Lemma version_parse_s v : version_parse (version_s v) = Some v.
Proof.
  destruct v as [a b c]; unfold version_parse, version_s; cbn [major minor patch String.append].
  rewrite split_on_app by (apply z_str_lacks; reflexivity).
  rewrite split_on_app by (apply z_str_lacks; reflexivity).
  rewrite split_on_lacks by (apply z_str_lacks; reflexivity).
  rewrite !int_of_z_str; reflexivity.
Qed.

(** X2: [Version.parse] fails (raises) on every string that does not contain
    exactly two dots. *)
Theorem version_parse_dots s : str_count "." s <> 2 -> version_parse s = None.
Proof.
  intros H; unfold version_parse; pose proof (split_on_length "." s) as Hl.
  destruct (split_on "." s) as [|a [|b [|c [|d l]]]]; try reflexivity.
  simpl in Hl; lia.
Qed.

Lemma string_app_cancel_l p a b : String.append p a = String.append p b -> a = b.
Proof. induction p as [|c p IH]; simpl; [auto|intros H; injection H; auto]. Qed.

Lemma string_app_cancel_r a b t : String.append a t = String.append b t -> a = b.
Proof.
  intros H; apply (f_equal list_ascii_of_string) in H.
  rewrite !list_ascii_of_string_append in H; apply app_inv_tail in H.
  rewrite <- (string_of_list_ascii_of_string a), <- (string_of_list_ascii_of_string b), H.
  reflexivity.
Qed.

Lemma version_s_inj v1 v2 : version_s v1 = version_s v2 -> v1 = v2.
Proof.
  intros H; apply (f_equal version_parse) in H; rewrite !version_parse_s in H.
  injection H; auto.
Qed.

(** X3: On one machine (fixed libc and architecture), [_linux_archive_name]
    gives different versions different archive names. *)
Theorem linux_archive_name_injective libc machine v1 v2 :
  linux_archive_name libc machine v1 = linux_archive_name libc machine v2 -> v1 = v2.
Proof.
  unfold linux_archive_name; intros H.
  apply string_app_cancel_l, string_app_cancel_r, version_s_inj in H; exact H.
Qed.

(** X4: On one machine, two versions for which [_darwin_archive_name] returns
    the same name are equal. *)
Theorem darwin_archive_name_injective macos machine v1 v2 name :
  darwin_archive_name macos machine v1 = Some name ->
  darwin_archive_name macos machine v2 = Some name -> v1 = v2.
Proof.
  unfold darwin_archive_name; destruct (split_on "." macos) as [|a [|b l]];
    try discriminate.
  destruct (int_of_str a) as [m|]; [|discriminate].
  intros H1 H2; rewrite <- H2 in H1; injection H1; intros H.
  apply string_app_cancel_r, version_s_inj in H; exact H.
Qed.

Lemma split_on_concat_head c b rest :
  lacks c b = true -> exists tl, split_on c (String.concat (String c "") (b :: rest)) = b :: tl.
Proof.
  intros Hb; destruct rest as [|x rest].
  - exists []; apply split_on_lacks, Hb.
  - eexists; cbn [String.concat]; cbn [String.append]; apply split_on_app, Hb.
Qed.

Lemma concat_cons2 sep a b l :
  String.concat sep (a :: b :: l) = String.append a (String.append sep (String.concat sep (b :: l))).
Proof. reflexivity. Qed.

(** X5: From macOS 11 on, [_darwin_archive_name] ignores the minor macOS
    version and anything after it: only the major version enters the name (as
    [major_0]). *)
Theorem darwin_archive_name_minor_ignored macos_major minor1 minor2 rest1 rest2 m machine v :
  lacks "." macos_major = true -> lacks "." minor1 = true -> lacks "." minor2 = true ->
  int_of_str macos_major = Some m -> (11 <= m)%Z ->
  darwin_archive_name (String.concat "." (macos_major :: minor1 :: rest1)) machine v =
  darwin_archive_name (String.concat "." (macos_major :: minor2 :: rest2)) machine v.
Proof.
  intros Ha H1 H2 Hm Hge; unfold darwin_archive_name.
  destruct (split_on_concat_head "." minor1 rest1 H1) as [tl1 E1].
  destruct (split_on_concat_head "." minor2 rest2 H2) as [tl2 E2].
  rewrite !concat_cons2; cbn [String.append].
  rewrite !split_on_app by exact Ha.
  rewrite E1, E2, Hm.
  replace (11 <=? m)%Z with true by (symmetry; apply Z.leb_le; exact Hge).
  reflexivity.
Qed.

(** X6: [_darwin_archive_name] raises when the macOS version string has no dot
    (in particular when [platform.mac_ver()] returns an empty version). *)
Theorem darwin_archive_name_no_dot macos machine v :
  lacks "." macos = true -> darwin_archive_name macos machine v = None.
Proof. intros H; unfold darwin_archive_name; rewrite split_on_lacks by exact H; reflexivity. Qed.


Lemma string_append_empty_r s : String.append s "" = s.
Proof. induction s as [|c s IH]; simpl; [reflexivity|rewrite IH; reflexivity]. Qed.

Lemma string_append_assoc' a b c :
  String.append (String.append a b) c = String.append a (String.append b c).
Proof. induction a as [|x a IH]; simpl; [reflexivity|rewrite IH; reflexivity]. Qed.

Lemma splitlines_go_line s t cur :
  no_linebreak s = true ->
  splitlines_go (String.append s (String "010" t)) cur = String.append cur s :: splitlines_go t "".
Proof.
  revert cur; induction s as [|d s IH]; intros cur H.
  - cbn [String.append splitlines_go]; rewrite string_append_empty_r; reflexivity.
  - unfold no_linebreak in H; cbn [list_ascii_of_string forallb] in H.
    apply andb_true_iff in H as [H1 H2]; apply negb_true_iff in H1.
    cbn [String.append splitlines_go].
    assert (Hd : Ascii.eqb d "013"%char = false).
    { destruct (Ascii.eqb_spec d "013"%char) as [->|]; [discriminate|reflexivity]. }
    rewrite Hd, H1, IH by exact H2.
    rewrite string_append_assoc'; reflexivity.
Qed.

Lemma text_cons p ps :
  Fixtures.text (p :: ps) = String.append p (String "010" (Fixtures.text ps)).
Proof.
  unfold Fixtures.text; cbn [map]; destruct ps as [|q ps].
  - cbn [String.concat]; reflexivity.
  - change (String.concat "" (String.append p Fixtures.NL :: map (fun l => String.append l Fixtures.NL) (q :: ps)))
      with (String.append (String.append p Fixtures.NL) (String.append "" (String.concat "" (map (fun l => String.append l Fixtures.NL) (q :: ps))))).
    rewrite string_append_assoc'; reflexivity.
Qed.

Lemma splitlines_text ps :
  forallb no_linebreak ps = true -> splitlines (Fixtures.text ps) = ps.
Proof.
  unfold splitlines; induction ps as [|p ps IH]; intros H; [reflexivity|].
  cbn [forallb] in H; apply andb_true_iff in H as [H1 H2].
  rewrite text_cons, splitlines_go_line by exact H1; rewrite IH by exact H2; reflexivity.
Qed.

(** X7: [_darwin_configure_args] returns [--with-openssl=<path>] exactly when
    [brew --prefix] prints one line, and raises on any other number of lines. *)
Theorem darwin_configure_args_lines ps :
  forallb no_linebreak ps = true ->
  darwin_configure_args (Fixtures.text ps) =
  match ps with
  | [ssl_path] => Some [String.append "--with-openssl=" ssl_path]
  | _ => None
  end.
Proof. intros H; unfold darwin_configure_args, brew_paths; rewrite splitlines_text by exact H; reflexivity. Qed.

Lemma sanitize_environ_frame e k :
  sanitize_environ e k =
  if mem k managed_keys then sanitize_environ (fun _ => None) k else e k.
Proof.
  unfold sanitize_environ, mem, managed_keys, env_set, env_pop; cbn [fold_left existsb].
  repeat match goal with
         | |- context [String.eqb k ?s] => destruct (String.eqb_spec k s) as [->|?]
         end; reflexivity.
Qed.

(** X8: After [_sanitize_environ] (and then [_darwin_modify_env]), the managed
    variables take values independent of the inherited environment, every
    other variable keeps its inherited value, and [CFLAGS] is unset. *)
Theorem build_environ_frame out e k :
  sanitize_environ e k =
    (if mem k managed_keys then sanitize_environ (fun _ => None) k else e k) /\
  darwin_modify_env out (sanitize_environ e) k =
    (if mem k managed_keys then darwin_modify_env out (sanitize_environ (fun _ => None)) k
     else e k) /\
  sanitize_environ e "CFLAGS" = None /\
  darwin_modify_env out (sanitize_environ e) "CFLAGS" = None.
Proof.
  unfold darwin_modify_env, sanitize_environ, mem, managed_keys, env_set, env_pop;
    cbn [fold_left existsb].
  repeat split; try reflexivity;
  repeat match goal with
         | |- context [String.eqb k ?s] => destruct (String.eqb_spec k s) as [->|?]
         end; reflexivity.
Qed.

Lemma lacks_app c a b : lacks c (String.append a b) = (lacks c a && lacks c b)%bool.
Proof. unfold lacks; rewrite list_ascii_of_string_append, forallb_app; reflexivity. Qed.

Lemma lacks_ospath_join1 c a b :
  Ascii.eqb "/" c = false -> lacks c a = true -> lacks c b = true ->
  lacks c (ospath_join1 a b) = true.
Proof.
  intros Hs Ha Hb; unfold ospath_join1.
  destruct (prefix "/" b); [exact Hb|].
  destruct a as [|x a']; [exact Hb|].
  destruct (last_char (String x a')) as [[[] [] [] [] [] [] [] []]|];
    rewrite lacks_app, Ha; cbn [andb];
    try exact Hb; unfold lacks in *; cbn [list_ascii_of_string forallb];
    rewrite Hb, andb_true_r, Hs; reflexivity.
Qed.

Lemma lacks_ospath_join c a parts :
  Ascii.eqb "/" c = false -> lacks c a = true -> forallb (lacks c) parts = true ->
  lacks c (ospath_join a parts) = true.
Proof.
  unfold ospath_join; revert a; induction parts as [|b parts IH]; intros a Hs Ha Hp;
    [exact Ha|].
  cbn [forallb] in Hp; apply andb_true_iff in Hp as [Hb Hp].
  cbn [fold_left]; apply IH; [exact Hs| |exact Hp].
  apply lacks_ospath_join1; assumption.
Qed.

Lemma split_on_concat c l :
  l <> [] -> forallb (lacks c) l = true ->
  split_on c (String.concat (String c "") l) = l.
Proof.
  induction l as [|x l IH]; intros Hne H; [contradiction|].
  cbn [forallb] in H; apply andb_true_iff in H as [Hx H].
  destruct l as [|y l].
  - apply split_on_lacks, Hx.
  - rewrite concat_cons2; cbn [String.append].
    rewrite split_on_app by exact Hx; rewrite IH by (discriminate || exact H); reflexivity.
Qed.

Lemma strip_prefix_app p x : strip_prefix p (String.append p x) = Some x.
Proof.
  induction p as [|c p IH]; [destruct x; reflexivity|].
  cbn [String.append strip_prefix]; rewrite Ascii.eqb_refl; exact IH.
Qed.

Lemma map_strip_prefix p l :
  map (strip_prefix p) (map (String.append p) l) = map Some l.
Proof. induction l as [|x l IH]; [reflexivity|]; cbn [map]; rewrite strip_prefix_app, IH; reflexivity. Qed.

Lemma forallb_map_lacks c p l :
  lacks c p = true -> forallb (lacks c) l = true ->
  forallb (lacks c) (map (String.append p) l) = true.
Proof.
  intros Hp Hl; apply forallb_forall; intros y Hy; apply in_map_iff in Hy as (x & <- & Hx).
  rewrite lacks_app, Hp; exact (proj1 (forallb_forall _ _) Hl x Hx).
Qed.

Lemma forallb_join_lacks c parts l :
  Ascii.eqb "/" c = false -> forallb (lacks c) parts = true -> forallb (lacks c) l = true ->
  forallb (lacks c) (map (fun path => ospath_join path parts) l) = true.
Proof.
  intros Hs Hp Hl; apply forallb_forall; intros y Hy; apply in_map_iff in Hy as (x & <- & Hx).
  apply lacks_ospath_join; [exact Hs| |exact Hp]; exact (proj1 (forallb_forall _ _) Hl x Hx).
Qed.

(** X9: For brew prefixes without spaces, colons or line breaks, the flags
    [_darwin_modify_env] sets split back into one [-I<prefix>/include], one
    [-L<prefix>/lib] and one [<prefix>/lib/pkgconfig] entry per prefix, in
    order. *)
Theorem darwin_flags_split ps e :
  ps <> [] ->
  forallb no_linebreak ps = true ->
  forallb (lacks " ") ps = true -> forallb (lacks ":") ps = true ->
  let env := darwin_modify_env (Fixtures.text ps) e in
  option_map (fun v => map (strip_prefix "-I") (split_on " " v)) (env "CPPFLAGS") =
    Some (map (fun p => Some (ospath_join p ["include"])) ps) /\
  option_map (fun v => map (strip_prefix "-L") (split_on " " v)) (env "LDFLAGS") =
    Some (map (fun p => Some (ospath_join p ["lib"])) ps) /\
  option_map (split_on ":") (env "PKG_CONFIG_PATH") =
    Some (map (fun p => ospath_join p ["lib"; "pkgconfig"]) ps).
Proof.
  intros Hne Hlb Hsp Hco env; subst env.
  unfold darwin_modify_env, env_set, brew_paths; rewrite splitlines_text by exact Hlb.
  cbn [String.eqb Ascii.eqb Bool.eqb option_map].
  assert (Hne' : forall parts, map (fun path => ospath_join path parts) ps <> []).
  { intros parts; destruct ps; [contradiction|discriminate]. }
  split; [|split].
  - rewrite split_on_concat.
    + rewrite map_strip_prefix, map_map; reflexivity.
    + destruct ps; [contradiction|discriminate].
    + apply forallb_map_lacks; [reflexivity|apply forallb_join_lacks; auto].
  - rewrite split_on_concat.
    + rewrite map_strip_prefix, map_map; reflexivity.
    + destruct ps; [contradiction|discriminate].
    + apply forallb_map_lacks; [reflexivity|apply forallb_join_lacks; auto].
  - rewrite split_on_concat; [reflexivity|apply Hne'|].
    apply forallb_join_lacks; auto.
Qed.

Lemma CHUNK_pos : 0 < CHUNK.
Proof. apply Nat.ltb_lt; reflexivity. Qed.

Lemma read_loop_chunks f (x : list Byte.byte) :
  length x < f ->
  exists chunks,
    read_loop f (firstn CHUNK x) (skipn CHUNK x) = Some chunks /\
    concat chunks = x /\
    Forall (fun c => 0 < length c <= CHUNK) chunks /\
    (forall c, In c (removelast chunks) -> length c = CHUNK).
Proof.
  pose proof CHUNK_pos as Hc.
  revert x; induction f as [|f IH]; intros x Hx; [lia|].
  destruct x as [|b x'].
  - exists []; rewrite firstn_nil; repeat split; [constructor|intros c []].
  - set (x := b :: x') in *.
    assert (Hlt : length (skipn CHUNK x) < f).
    { rewrite length_skipn; subst x; cbn [length] in *; lia. }
    destruct (IH _ Hlt) as (cs & Hrun & Hcat & Hsz & Hfull).
    assert (Hne : firstn CHUNK x <> []).
    { subst x; destruct CHUNK; [lia|discriminate]. }
    exists (firstn CHUNK x :: cs); cbn [read_loop].
    destruct (firstn CHUNK x) as [|y ys] eqn:Ef; [contradiction|].
    rewrite Hrun; cbn [option_map].
    split; [reflexivity|split; [|split]].
    + cbn [concat]; rewrite Hcat, <- Ef; apply firstn_skipn.
    + constructor; [|exact Hsz].
      rewrite <- Ef, length_firstn; subst x; cbn [length]; lia.
    + intros c Hin; destruct cs as [|c0 cs'].
      * destruct Hin.
      * cbn [removelast] in Hin; destruct Hin as [<-|Hin]; [|apply Hfull, Hin].
        rewrite <- Ef, length_firstn.
        assert (CHUNK < length x).
        { assert (Hsk : skipn CHUNK x <> []).
          { intros E; rewrite E in Hcat; destruct c0 as [|z c0'].
            - inversion Hsz as [|? ? Hz _]; cbn [length] in Hz; lia.
            - discriminate Hcat. }
          destruct (Nat.lt_ge_cases CHUNK (length x)) as [|Hge]; [assumption|].
          exfalso; apply Hsk, skipn_all2, Hge. }
        lia.
Qed.

Lemma download_chunks_spec data :
  exists chunks,
    download_chunks data = Some chunks /\
    concat chunks = data /\
    Forall (fun c => 0 < length c <= CHUNK) chunks /\
    (forall c, In c (removelast chunks) -> length c = CHUNK).
Proof. apply read_loop_chunks; lia. Qed.

(** X11: [_download] returns normally exactly when the digest of the
    downloaded data equals the expected [sha256]; otherwise it exits. *)
Theorem download_checks_digest hexdigest data sha256 :
  download hexdigest data sha256 = Some tt <-> hexdigest data = sha256.
Proof.
  unfold download; destruct (download_chunks_spec data) as (cs & -> & Hcat & _).
  rewrite Hcat; destruct (String.eqb_spec (hexdigest data) sha256); split;
    congruence.
Qed.

Lemma ascii_compare_refl a : Ascii.compare a a = Eq.
Proof. apply N.compare_refl. Qed.

Lemma ascii_compare_lt_trans a b c :
  Ascii.compare a b = Lt -> Ascii.compare b c = Lt -> Ascii.compare a c = Lt.
Proof. unfold Ascii.compare; rewrite !N.compare_lt_iff; lia. Qed.

Lemma string_compare_refl s : String.compare s s = Eq.
Proof. induction s as [|c s IH]; simpl; [reflexivity|rewrite ascii_compare_refl; exact IH]. Qed.

Lemma string_compare_lt_trans a b c :
  String.compare a b = Lt -> String.compare b c = Lt -> String.compare a c = Lt.
Proof.
  revert b c; induction a as [|x a IH]; intros [|y b] [|z c]; simpl; try discriminate;
    try reflexivity.
  destruct (Ascii.compare x y) eqn:Exy; try discriminate;
    destruct (Ascii.compare y z) eqn:Eyz; try discriminate; intros H1 H2.
  - apply Ascii.compare_eq_iff in Exy, Eyz; subst; rewrite ascii_compare_refl; eauto.
  - apply Ascii.compare_eq_iff in Exy; subst; rewrite Eyz; reflexivity.
  - apply Ascii.compare_eq_iff in Eyz; subst; rewrite Exy; reflexivity.
  - rewrite (ascii_compare_lt_trans _ _ _ Exy Eyz); reflexivity.
Qed.

Lemma string_compare_prefix x r : String.compare x (String.append x (String "/" r)) = Lt.
Proof. induction x as [|c x IH]; simpl; [reflexivity|rewrite ascii_compare_refl; exact IH]. Qed.


Lemma arc_leb_cmp a b : arc_leb a b = match arc_cmp a b with Gt => false | _ => true end.
Proof.
  unfold arc_leb, arc_cmp; destruct (String.compare (fst a) (fst b)); try reflexivity.
Qed.

Lemma arc_cmp_antisym a b : arc_cmp a b = CompOpp (arc_cmp b a).
Proof.
  unfold arc_cmp; rewrite (String.compare_antisym (fst a)), (String.compare_antisym (snd a)).
  destruct (String.compare (fst b) (fst a)); reflexivity.
Qed.

Lemma arc_cmp_eq a b : arc_cmp a b = Eq -> a = b.
Proof.
  destruct a as [a1 a2], b as [b1 b2]; unfold arc_cmp; cbn [fst snd].
  destruct (String.compare a1 b1) eqn:E1; try discriminate.
  intros E2; apply String.compare_eq_iff in E1, E2; subst; reflexivity.
Qed.

Lemma arc_cmp_lt_trans a b c : arc_cmp a b = Lt -> arc_cmp b c = Lt -> arc_cmp a c = Lt.
Proof.
  destruct a as [a1 a2], b as [b1 b2], c as [c1 c2]; unfold arc_cmp; cbn [fst snd].
  destruct (String.compare a1 b1) eqn:E1; try discriminate;
    destruct (String.compare b1 c1) eqn:E2; try discriminate; intros H1 H2.
  - apply String.compare_eq_iff in E1, E2; subst; rewrite string_compare_refl.
    eapply string_compare_lt_trans; eauto.
  - apply String.compare_eq_iff in E1; subst; rewrite E2; reflexivity.
  - apply String.compare_eq_iff in E2; subst; rewrite E1; reflexivity.
  - rewrite (string_compare_lt_trans _ _ _ E1 E2); reflexivity.
Qed.


Lemma arc_le_total a b : arc_leb a b = false -> arc_le b a.
Proof.
  unfold arc_le; rewrite !arc_leb_cmp, (arc_cmp_antisym b a).
  destruct (arc_cmp a b); simpl; congruence.
Qed.

Lemma arc_le_trans a b c : arc_le a b -> arc_le b c -> arc_le a c.
Proof.
  unfold arc_le; rewrite !arc_leb_cmp.
  destruct (arc_cmp a b) eqn:E1; try discriminate;
    destruct (arc_cmp b c) eqn:E2; try discriminate; intros _ _.
  - apply arc_cmp_eq in E1, E2; subst; unfold arc_cmp; rewrite !string_compare_refl;
      reflexivity.
  - apply arc_cmp_eq in E1; subst; rewrite E2; reflexivity.
  - apply arc_cmp_eq in E2; subst; rewrite E1; reflexivity.
  - rewrite (arc_cmp_lt_trans _ _ _ E1 E2); reflexivity.
Qed.

Lemma arc_le_antisym a b : arc_le a b -> arc_le b a -> a = b.
Proof.
  unfold arc_le; rewrite !arc_leb_cmp, (arc_cmp_antisym b a).
  destruct (arc_cmp a b) eqn:E; simpl; try discriminate; intros _ _; apply arc_cmp_eq, E.
Qed.

Lemma insert_arc_perm a l : Permutation (insert_arc a l) (a :: l).
Proof.
  induction l as [|b l IH]; simpl; [reflexivity|].
  destruct (arc_leb a b); [reflexivity|].
  rewrite IH; apply perm_swap.
Qed.

Lemma sort_arcs_perm l : Permutation (sort_arcs l) l.
Proof.
  induction l as [|a l IH]; simpl; [reflexivity|].
  rewrite insert_arc_perm, IH; reflexivity.
Qed.

Lemma insert_arc_sorted a l : Sorted arc_le l -> Sorted arc_le (insert_arc a l).
Proof.
  induction 1 as [|b l Hs IH Hhd]; simpl; [repeat constructor|].
  destruct (arc_leb a b) eqn:E.
  - constructor; [constructor; assumption|constructor; exact E].
  - constructor; [exact IH|].
    destruct l as [|c l]; simpl; [constructor; apply arc_le_total, E|].
    destruct (arc_leb a c); constructor; [apply arc_le_total, E|inversion Hhd; assumption].
Qed.

Lemma sort_arcs_sorted l : StronglySorted arc_le (sort_arcs l).
Proof.
  apply Sorted_StronglySorted; [exact arc_le_trans|].
  induction l as [|a l IH]; simpl; [constructor|apply insert_arc_sorted, IH].
Qed.

Lemma sorted_perm_eq l1 l2 :
  StronglySorted arc_le l1 -> StronglySorted arc_le l2 -> Permutation l1 l2 -> l1 = l2.
Proof.
  revert l2; induction l1 as [|a l1 IH]; intros l2 H1 H2 Hp.
  - symmetry; apply Permutation_nil, Hp.
  - destruct l2 as [|b l2]; [apply Permutation_sym, Permutation_nil in Hp; discriminate|].
    apply StronglySorted_inv in H1 as [H1 F1], H2 as [H2 F2].
    assert (a = b).
    { assert (Ha : In a (b :: l2)) by (apply (Permutation_in _ Hp); now left).
      assert (Hb : In b (a :: l1)) by (apply (Permutation_in _ (Permutation_sym Hp)); now left).
      destruct Ha as [|Ha]; [congruence|]; destruct Hb as [|Hb]; [congruence|].
      apply arc_le_antisym; [rewrite Forall_forall in F1; apply F1, Hb|
                             rewrite Forall_forall in F2; apply F2, Ha]. }
    subst b; f_equal; apply IH; [exact H1|exact H2|].
    apply Permutation_cons_inv in Hp; exact Hp.
Qed.

Lemma sort_arcs_perm_eq l1 l2 : Permutation l1 l2 -> sort_arcs l1 = sort_arcs l2.
Proof.
  intros Hp; apply sorted_perm_eq; try apply sort_arcs_sorted.
  rewrite !sort_arcs_perm; exact Hp.
Qed.

Lemma sorted_app_before l1 a l2 x :
  StronglySorted arc_le (l1 ++ a :: l2) -> In x l1 -> arc_le x a.
Proof.
  induction l1 as [|y l1 IH]; intros Hs Hx; [destruct Hx|].
  apply StronglySorted_inv in Hs as [Hs F]; destruct Hx as [<-|Hx]; [|apply IH; assumption].
  rewrite Forall_forall in F; apply F, in_or_app; right; now left.
Qed.

Lemma sorted_before l a b :
  StronglySorted arc_le l -> In a l -> In b l -> arc_cmp a b = Lt ->
  exists l1 l2, l = l1 ++ a :: l2 /\ In b l2.
Proof.
  intros Hs Ha Hb Hlt; apply in_split in Ha as (l1 & l2 & ->).
  exists l1, l2; split; [reflexivity|].
  apply in_app_or in Hb as [Hb|[<-|Hb]]; [| |exact Hb]; exfalso.
  - pose proof (sorted_app_before _ _ _ _ Hs Hb) as Hle; unfold arc_le in Hle.
    rewrite arc_leb_cmp, arc_cmp_antisym, Hlt in Hle; discriminate.
  - unfold arc_cmp in Hlt; rewrite !string_compare_refl in Hlt; discriminate.
Qed.




Lemma archive_arcs_entries name src walk :
  archive_arcs name src walk = (name, render src) :: map (arc_of name src) (walk_entries walk).
Proof.
  unfold archive_arcs, walk_entries; f_equal.
  induction walk as [|[[root dirs] filenames] walk IH]; [reflexivity|].
  cbn [flat_map]; rewrite IH, !map_app, !map_map; reflexivity.

Qed.

(** X13: The members [_archive] writes, and their order, do not depend on the
    order in which [os.walk] lists the entries. *)
Theorem archive_members_walk_order name src walk1 walk2 :
  Permutation (walk_entries walk1) (walk_entries walk2) ->
  archive_members name src walk1 = archive_members name src walk2.
Proof.
  intros Hp; unfold archive_members; apply sort_arcs_perm_eq.
  rewrite !archive_arcs_entries; apply perm_skip, Permutation_map, Hp.
Qed.

(** X14: In the archive [_archive] writes, a directory comes before every
    entry below it. *)
Theorem archive_members_parent_first name src walk a b r :
  In a (archive_members name src walk) -> In b (archive_members name src walk) ->
  fst b = String.append (fst a) (String "/" r) ->
  exists l1 l2, archive_members name src walk = l1 ++ a :: l2 /\ In b l2.
Proof.
  intros Ha Hb Hr; apply sorted_before; [apply sort_arcs_sorted|exact Ha|exact Hb|].
  unfold arc_cmp; rewrite Hr, string_compare_prefix; reflexivity.
Qed.

Lemma last_char_in s c : last_char s = Some c -> In c (list_ascii_of_string s).
Proof.
  induction s as [|d s IH]; [discriminate|].
  destruct s as [|e s]; cbn [last_char].
  - intros H; injection H as <-; now left.
  - intros H; right; apply IH, H.
Qed.

Lemma ospath_join1_plain a b :
  a <> "" -> lacks "/" a = true -> prefix "/" b = false ->
  ospath_join1 a b = String.append a (String "/" b).
Proof.
  intros Hne Ha Hb; unfold ospath_join1; rewrite Hb.
  destruct a as [|x a']; [contradiction|].
  destruct (last_char (String x a')) as [c|] eqn:Hl; [|reflexivity].
  apply last_char_in in Hl.
  assert (Hc : Ascii.eqb c "/" = false).
  { unfold lacks in Ha; rewrite forallb_forall in Ha; apply negb_true_iff, Ha, Hl. }
  destruct c as [b0 b1 b2 b3 b4 b5 b6 b7];
    destruct b0, b1, b2, b3, b4, b5, b6, b7; try reflexivity; discriminate Hc.
Qed.

Lemma common_len_app src x : common_len (app src x) src = length src.
Proof.
  induction src as [|s src IH]; [destruct x; reflexivity|].
  cbn [app common_len]; rewrite String.eqb_refl, IH; reflexivity.
Qed.

Lemma relpath_below src rel : rel <> [] -> relpath (app src rel) src = String.concat "/" rel.
Proof.
  intros Hne; unfold relpath; rewrite common_len_app, Nat.sub_diag, skipn_app,
    skipn_all, Nat.sub_diag; cbn [repeat app skipn].
  destruct rel; [contradiction|reflexivity].
Qed.

Lemma concat_head x rest : exists t, String.concat "/" (x :: rest) = String.append x t.
Proof.
  destruct rest as [|y rest].
  - exists ""; cbn [String.concat]; rewrite string_append_empty_r; reflexivity.
  - eexists; rewrite concat_cons2; reflexivity.
Qed.

Lemma prefix_slash_proper x rest :
  proper_name x = true -> prefix "/" (String.concat "/" (x :: rest)) = false.
Proof.
  intros Hx; destruct (concat_head x rest) as [t ->].
  unfold proper_name in Hx; apply andb_true_iff in Hx as [Hx1 Hx2].
  destruct x as [|c x]; [discriminate|].
  apply lacks_cons in Hx2 as [Hc _].
  cbn [String.append prefix].
  destruct (ascii_dec "/" c) as [<-|]; [rewrite Ascii.eqb_refl in Hc; discriminate|reflexivity].
Qed.

Lemma strip_1_top name x : lacks "/" name = true -> strip_1 (String.append name (String "/" x)) = x.
Proof.
  unfold strip_1; induction name as [|c name IH]; intros H.
  - cbn [String.append partition_after]; rewrite Ascii.eqb_refl; reflexivity.
  - apply lacks_cons in H as [H1 H2]; cbn [String.append partition_after]; rewrite H1.
    apply IH, H2.
Qed.

Lemma strip_1_no_slash s : lacks "/" s = true -> strip_1 s = "".
Proof.
  unfold strip_1; induction s as [|c s IH]; intros H; [reflexivity|].
  apply lacks_cons in H as [H1 H2]; cbn [partition_after]; rewrite H1; apply IH, H2.
Qed.

(** X15: Every member of the archive is the top directory [name] or lies below
    it, and [_extract_strip_1] maps each member's name back to its path
    relative to the archived tree. *)
Theorem archive_members_layout name src walk :
  proper_name name = true ->
  Forall (fun t : walk_triple =>
            let '(root, dirs, filenames) := t in
            exists sub, root = app src sub /\
                        forallb proper_name (app sub (app dirs filenames)) = true) walk ->
  forall m, In m (archive_members name src walk) ->
    (m = (name, render src) /\ strip_1 (fst m) = "") \/
    exists rel, rel <> [] /\ forallb proper_name rel = true /\
      m = (String.append name (String "/" (String.concat "/" rel)), render (app src rel)) /\
      strip_1 (fst m) = String.concat "/" rel.
Proof.
  intros Hname Hwalk m Hm.
  unfold archive_members in Hm; apply (Permutation_in _ (sort_arcs_perm _)) in Hm.
  rewrite archive_arcs_entries in Hm.
  assert (Hn : name <> "" /\ lacks "/" name = true).
  { unfold proper_name in Hname; apply andb_true_iff in Hname as [H1 H2].
    split; [intros ->; discriminate|exact H2]. }
  destruct Hm as [<-|Hm].
  - left; split; [reflexivity|apply strip_1_no_slash, Hn].
  - right; apply in_map_iff in Hm as (e & <- & He).
    unfold walk_entries in He; apply in_flat_map in He as ([[root dirs] filenames] & Ht & He).
    rewrite Forall_forall in Hwalk; destruct (Hwalk _ Ht) as (sub & -> & Hp).
    apply in_map_iff in He as (f & <- & Hf).
    assert (Hrel : forallb proper_name (app sub [f]) = true).
    { rewrite forallb_app in Hp |- *; apply andb_true_iff in Hp as [Hs Hdf].
      rewrite Hs; cbn; rewrite andb_true_r.
      rewrite forallb_forall in Hdf; apply Hdf, Hf. }
    assert (Hne : app sub [f] <> []) by (destruct sub; discriminate).
    exists (app sub [f]); split; [exact Hne|split; [exact Hrel|]].
    unfold arc_of, join; rewrite <- app_assoc, relpath_below by exact Hne.
    rewrite ospath_join1_plain; [|apply Hn|apply Hn|].
    + split; [reflexivity|cbn [fst]; apply strip_1_top, Hn].
    + destruct (app sub [f]) as [|x rest] eqn:E; [contradiction|].
      apply prefix_slash_proper; cbn [forallb] in Hrel; apply andb_true_iff in Hrel; apply Hrel.
Qed.

Lemma split_on_nonempty c s : split_on c s <> [].
Proof. intros H; pose proof (split_on_length c s) as Hl; rewrite H in Hl; discriminate. Qed.

Lemma last_split_on_sep c a b :
  last (split_on c (String.append a (String c b))) "" = last (split_on c b) "".
Proof.
  induction a as [|d a IH].
  - cbn [String.append split_on]; rewrite Ascii.eqb_refl.
    destruct (split_on c b) eqn:E; [exfalso; apply (split_on_nonempty c b), E|reflexivity].
  - cbn [String.append split_on]; destruct (Ascii.eqb d c).
    + rewrite <- IH; destruct (split_on c (String.append a (String c b))) eqn:E;
        [exfalso; eapply split_on_nonempty; exact E|reflexivity].
    + rewrite <- IH.
      pose proof (split_on_length c (String.append a (String c b))) as Hl.
      assert (Hc : str_count c (String.append a (String c b)) <> 0).
      { unfold str_count; rewrite list_ascii_of_string_append, filter_app, length_app.
        cbn [list_ascii_of_string filter]; rewrite Ascii.eqb_refl; cbn [length]; lia. }
      destruct (split_on c (String.append a (String c b))) as [|h [|h' t]];
        cbn [length] in Hl; [lia|lia|reflexivity].
Qed.

Lemma last_char_split s c : last_char s = Some c -> exists a, s = String.append a (String c "").
Proof.
  induction s as [|d s IH]; [discriminate|].
  destruct s as [|e s]; cbn [last_char].
  - intros H; injection H as <-; exists ""; reflexivity.
  - intros H; destruct (IH H) as [a Ha]; exists (String d a); rewrite Ha; reflexivity.
Qed.

Lemma str_basename_join dir b :
  lacks "/" b = true -> str_basename (ospath_join1 dir b) = b.
Proof.
  intros Hb; unfold str_basename.
  assert (Hp : prefix "/" b = false).
  { destruct b as [|x b]; [reflexivity|]; apply lacks_cons in Hb as [Hx _].
    cbn [prefix]; destruct (ascii_dec "/" x) as [<-|]; [rewrite Ascii.eqb_refl in Hx; discriminate|reflexivity]. }
  assert (Hlast : forall a, last (split_on "/" (String.append a (String "/" b))) "" = b).
  { intros a; rewrite last_split_on_sep, split_on_lacks by exact Hb; reflexivity. }
  unfold ospath_join1; rewrite Hp.
  destruct dir as [|x a']; [rewrite split_on_lacks by exact Hb; reflexivity|].
  destruct (last_char (String x a')) as [c|] eqn:Hl; [|apply Hlast].
  destruct (last_char_split _ _ Hl) as [a Ha]; rewrite Ha.
  destruct c as [b0 b1 b2 b3 b4 b5 b6 b7];
    destruct b0, b1, b2, b3, b4, b5, b6, b7; try apply Hlast;
    rewrite string_append_assoc'; apply Hlast.
Qed.

Lemma split_last_dot_none l : forallb (fun d => negb (Ascii.eqb d ".")) l = true -> split_last_dot l = None.
Proof.
  induction l as [|c l IH]; intros H; [reflexivity|].
  cbn [forallb] in H; apply andb_true_iff in H as [H1 H2]; apply negb_true_iff in H1.
  cbn [split_last_dot]; rewrite IH by exact H2; rewrite H1; reflexivity.
Qed.

Lemma split_last_dot_app l1 l2 :
  forallb (fun d => negb (Ascii.eqb d ".")) l2 = true ->
  split_last_dot (l1 ++ "."%char :: l2) = Some (l1, "."%char :: l2).
Proof.
  intros H; induction l1 as [|c l1 IH].
  - cbn [app split_last_dot]; rewrite split_last_dot_none by exact H; reflexivity.
  - cbn [app split_last_dot]; rewrite IH; reflexivity.
Qed.

Lemma splitext_tgz stem :
  forallb (Ascii.eqb ".") (list_ascii_of_string stem) = false ->
  splitext (String.append stem ".tgz") = (stem, ".tgz").
Proof.
  intros H; unfold splitext; rewrite list_ascii_of_string_append.
  rewrite (split_last_dot_app _ ["t"; "g"; "z"]%char) by reflexivity.
  rewrite H, string_of_list_ascii_of_string; reflexivity.
Qed.

Lemma lacks_replace_char c a b s :
  Ascii.eqb b c = false -> lacks c s = true -> lacks c (replace_char a b s) = true.
Proof.
  intros Hb; induction s as [|d s IH]; intros H; [reflexivity|].
  apply lacks_cons in H as [H1 H2]; unfold lacks in *; cbn [replace_char list_ascii_of_string forallb].
  rewrite IH by exact H2; destruct (Ascii.eqb d a); rewrite ?Hb, ?H1; reflexivity.
Qed.

Lemma version_s_lacks c v :
  is_digit c = false -> Ascii.eqb c "-" = false -> Ascii.eqb c "." = false ->
  lacks c (version_s v) = true.
Proof.
  intros H1 H2 H3; unfold version_s.
  rewrite !lacks_app, !z_str_lacks by assumption.
  unfold lacks; cbn [list_ascii_of_string forallb]; rewrite Ascii.eqb_sym, H3; reflexivity.
Qed.

(** X16: The top directory of the archive [main] builds on Linux is the
    archive name without [.tgz], whatever the temporary directory. *)
Theorem linux_archive_top_name tmpdir libc machine v :
  lacks "/" libc = true -> lacks "/" machine = true ->
  fst (splitext (str_basename (ospath_join1 tmpdir (linux_archive_name libc machine v)))) =
  String.append "python-" (String.append (version_s v)
    (String.append "-manylinux_" (String.append (replace_char "." "_" libc)
      (String.append "_" machine)))).
Proof.
  intros Hl Hm.
  set (stem := String.append "python-" (String.append (version_s v)
    (String.append "-manylinux_" (String.append (replace_char "." "_" libc)
      (String.append "_" machine))))).
  replace (linux_archive_name libc machine v) with (String.append stem ".tgz")
    by (unfold stem, linux_archive_name; rewrite !string_append_assoc'; reflexivity).
  rewrite str_basename_join.
  - rewrite splitext_tgz; [reflexivity|]. unfold stem; reflexivity.
  - unfold stem; rewrite !lacks_app, Hm, version_s_lacks by reflexivity.
    rewrite lacks_replace_char by (reflexivity || exact Hl); reflexivity.
Qed.




Lemma normpath_go_dots acc k ps :
  normpath_go acc (app (repeat ".." k) ps) = normpath_go (firstn (length acc - k) acc) ps.
Proof.
  revert acc; induction k as [|k IH]; intros acc.
  - cbn [repeat app]; rewrite Nat.sub_0_r, firstn_all; reflexivity.
  - cbn [repeat app normpath_go]; cbn [String.eqb Ascii.eqb Bool.eqb orb].
    rewrite IH, removelast_firstn_len, firstn_firstn, length_firstn.
    f_equal; f_equal; lia.
Qed.

Lemma normpath_go_proper acc ps :
  forallb proper_component ps = true -> normpath_go acc ps = app acc ps.
Proof.
  revert acc; induction ps as [|p ps IH]; intros acc H; [rewrite app_nil_r; reflexivity|].
  cbn [forallb] in H; apply andb_true_iff in H as [Hp H].
  unfold proper_component in Hp.
  destruct (String.eqb p "") eqn:E1, (String.eqb p ".") eqn:E2, (String.eqb p "..") eqn:E3;
    try discriminate Hp.
  cbn [normpath_go]; rewrite E1, E2, E3; cbn [orb].
  rewrite IH by exact H; rewrite <- app_assoc; reflexivity.
Qed.

Lemma common_len_spec a b :
  common_len a b <= length a /\ common_len a b <= length b /\
  firstn (common_len a b) a = firstn (common_len a b) b.
Proof.
  revert b; induction a as [|x a IH]; intros [|y b]; cbn [common_len length]; try (repeat split; lia).
  destruct (String.eqb_spec x y) as [<-|]; [|cbn; repeat split; lia].
  destruct (IH b) as (H1 & H2 & H3); cbn [firstn]; rewrite H3; repeat split; lia.
Qed.

Lemma proper_lacks_slash s : proper_component s = true -> lacks "/" s = true.
Proof. unfold proper_component; intros H; apply andb_true_iff in H; apply H. Qed.

Lemma relpath_resolves target start :
  forallb proper_component target = true ->
  resolve start (relpath target start) = target.
Proof.
  intros Ht; unfold resolve, relpath.
  destruct (common_len_spec target start) as (H1 & H2 & H3).
  set (c := common_len target start) in *.
  assert (Hsk : forallb proper_component (skipn c target) = true).
  { rewrite <- (firstn_skipn c target), forallb_app in Ht; apply andb_true_iff in Ht; apply Ht. }
  destruct (app (repeat ".." (length start - c)) (skipn c target)) as [|x parts] eqn:E.
  - apply app_eq_nil in E as [E1 E2].
    assert (Hk : length start - c = 0) by (destruct (length start - c); [reflexivity|discriminate]).
    cbn [split_on String.eqb Ascii.eqb Bool.eqb]; cbn [normpath_go orb].
    rewrite <- (firstn_skipn c target), E2, app_nil_r, H3, firstn_all2 by lia; reflexivity.
  - rewrite split_on_concat; [|discriminate|].
    + rewrite <- E, normpath_go_dots, normpath_go_proper by exact Hsk.
      replace (length start - (length start - c)) with c by lia.
      rewrite <- H3; apply firstn_skipn.
    + rewrite <- E, forallb_app; apply andb_true_iff; split.
      * clear; induction (length start - c); [reflexivity|cbn [repeat forallb]; rewrite IHn; reflexivity].
      * apply forallb_forall; intros y Hy; apply proper_lacks_slash.
        rewrite forallb_forall in Hsk; apply Hsk, Hy.
Qed.

(** X17: The relative references [_linux_relink] and [_darwin_relink] write
    resolve, from the file's directory, to [libdir] ([$ORIGIN]), to
    [libdir/<basename of the link>] ([-change]) and to the file itself
    ([-id]). *)
Theorem relink_targets_resolve filename libdir set_name links :
  forallb proper_component libdir = true ->
  (forall cmd, In cmd (linux_relink_cmds filename libdir set_name) ->
     exists rel,
       cmd = ["patchelf"; "--force-rpath"; "--set-rpath"; String.append "$ORIGIN/" rel;
              render filename] /\
       resolve (dirname filename) rel = libdir) /\
  (forall link, In link links -> proper_component (basename link) = true ->
     exists rel,
       In ["install_name_tool"; "-change"; render link; String.append "@loader_path/" rel;
           render filename] (darwin_relink_cmds filename libdir set_name links) /\
       resolve (dirname filename) rel = join libdir (basename link)) /\
  (set_name = true -> filename <> [] -> proper_component (basename filename) = true ->
     In ["install_name_tool"; "-id"; String.append "@loader_path/" (basename filename);
         render filename] (darwin_relink_cmds filename libdir set_name links) /\
     resolve (dirname filename) (basename filename) = filename).
Proof.
  intros Hlib; split; [|split].
  - intros cmd [<-|[]]; eexists; split; [reflexivity|apply relpath_resolves, Hlib].
  - intros link Hin Hb; eexists; split.
    + unfold darwin_relink_cmds; apply in_or_app; right; apply in_or_app; left.
      apply in_map_iff; exists link; split; [reflexivity|exact Hin].
    + apply relpath_resolves; unfold join; rewrite forallb_app, Hlib; cbn.
      rewrite Hb; reflexivity.
  - intros -> Hne Hb; split.
    + unfold darwin_relink_cmds; apply in_or_app; left; now left.
    + unfold resolve; rewrite split_on_lacks by (apply proper_lacks_slash, Hb).
      rewrite normpath_go_proper by (cbn; rewrite Hb; reflexivity).
      unfold dirname, basename; symmetry; apply app_removelast_last, Hne.
Qed.

Section RelinkAll.

Context {content : Type} (plat : Platform content).

Hypothesis linked_exists : forall fs f lk,
  linked plat fs f = Some lk -> forall l, In l lk -> exists_ fs l = true.

Hypothesis relink_keeps_files : forall fs f libdir b fs',
  relink plat fs f libdir b = Some fs' -> forall p, exists_ fs' p = exists_ fs p.

Variable U : list string.

(** X18: [_relink] terminates: with finitely many names on disk, fuel of one
    more than their number suffices for the interpreter and every extension
    module. *)
Theorem relink_all_terminates (w : world content) prefix v dynload :
  finite_names U (w_fs w) ->
  relink_all plat (S (length U)) w prefix v dynload <> OutOfFuel.
Proof.
  intros Hfin; unfold relink_all.
  set (libdir := join prefix "lib").
  assert (Henough : forall (w0 : world content) f,
            finite_names U (w_fs w0) ->
            relink_1 plat (S (length U)) w0 f libdir false <> OutOfFuel).
  { intros w0 f Hf0; apply (relink_1_enough_fuel plat linked_exists relink_keeps_files U);
      [exact Hf0|pose proof (absent_le_U U libdir (w_fs w0)); lia]. }
  destruct (relink_1 plat (S (length U)) w (join (join prefix "bin") (py_minor v)) libdir false)
    as [w1| |] eqn:E.
  - destruct (relink_1_mono plat linked_exists relink_keeps_files U _ _ _ _ _ _ E Hfin)
      as [_ Hfin1].
    apply (for_each_fuel (fun w0 => finite_names U (w_fs w0))); [exact Hfin1| |].
    + intros w0 x w2 _ Hf0 Hrun.
      exact (proj2 (relink_1_mono plat linked_exists relink_keeps_files U _ _ _ _ _ _ Hrun Hf0)).
    + intros w0 x _ Hf0; apply Henough, Hf0.
  - discriminate.
  - intros _; exact (Henough w _ Hfin E).
Qed.

End RelinkAll.

Section RelinkAllFrame.

Context {content : Type} (plat : Platform content).

Hypothesis relink_frame : forall fs f libdir b fs',
  relink plat fs f libdir b = Some fs' ->
  (forall p, p <> f -> fs' p = fs p) /\ exists_ fs' f = exists_ fs f.

(** X19: A successful [_relink] first relinks the interpreter, then only adds
    entries to the log; every file it copies goes to a distinct path of
    [prefix/lib] that was absent before. *)
Theorem relink_all_copies n (w w' : world content) prefix v dynload :
  relink_all plat n w prefix v dynload = Ok w' ->
  exists new,
    w_log w' = w_log w ++ Relinked (join (join prefix "bin") (py_minor v)) false :: new /\
    NoDup (copied_files new) /\
    (forall d, In d (copied_files new) ->
       exists_ (w_fs w) d = false /\ exists_ (w_fs w') d = true /\
       in_libdir (join prefix "lib") d).
Proof.
  unfold relink_all; set (libdir := join prefix "lib").
  set (interp := join (join prefix "bin") (py_minor v)).
  destruct (relink_1 plat n w interp libdir false) as [w1| |] eqn:E; try discriminate.
  intros Hrun.
  destruct (relink_1_post plat relink_frame _ _ _ _ _ _ E)
    as (lk & fs1 & new1 & _ & _ & Hlog1 & Hmono1 & _ & _ & Hnd1 & Hc1 & _).
  cut (exists new,
       w_log w' = w_log w ++ Relinked interp false :: new /\
       (forall p, exists_ (w_fs w) p = true -> exists_ (w_fs w') p = true) /\
       NoDup (copied_files new) /\
       (forall d, In d (copied_files new) ->
          exists_ (w_fs w) d = false /\ exists_ (w_fs w') d = true /\ in_libdir libdir d)).
  { intros (new & H1 & _ & H2 & H3); exists new; auto. }
  refine (for_each_inv
    (fun w0 => exists new,
       w_log w0 = w_log w ++ Relinked interp false :: new /\
       (forall p, exists_ (w_fs w) p = true -> exists_ (w_fs w0) p = true) /\
       NoDup (copied_files new) /\
       (forall d, In d (copied_files new) ->
          exists_ (w_fs w) d = false /\ exists_ (w_fs w0) d = true /\ in_libdir libdir d))
    _ _ _ _ _ _ Hrun).
  - exists new1; split; [exact Hlog1|split; [exact Hmono1|split; [exact Hnd1|exact Hc1]]].
  - intros w0 x w2 _ (new & Hlog & Hmono & Hnd & Hc) Hx.
    destruct (relink_1_post plat relink_frame _ _ _ _ _ _ Hx)
      as (lk2 & fs2 & new2 & _ & _ & Hlog2 & Hmono2 & _ & _ & Hnd2 & Hc2 & _).
    exists (new ++ Relinked x false :: new2).
    split; [rewrite Hlog2, Hlog, <- app_assoc; reflexivity|].
    split; [intros p Hp; apply Hmono2, Hmono, Hp|].
    rewrite copied_files_app; cbn [copied_files flat_map app].
    change (flat_map (fun e => match e with Copied _ d => [d] | _ => [] end) new2)
      with (copied_files new2).
    split.
    + apply NoDup_app; [exact Hnd|exact Hnd2|].
      intros d Hd Hd2; destruct (Hc _ Hd) as (_ & Hin & _);
        destruct (Hc2 _ Hd2) as (Hout & _ & _); congruence.
    + intros d Hd; apply in_app_or in Hd as [Hd|Hd].
      * destruct (Hc _ Hd) as (Ha & Hp & Hl); split; [exact Ha|split; [apply Hmono2, Hp|exact Hl]].
      * destruct (Hc2 _ Hd) as (Ha & Hp & Hl); split; [|split; [exact Hp|exact Hl]].
        destruct (exists_ (w_fs w) d) eqn:Ew; [|reflexivity].
        rewrite (Hmono _ Ew) in Ha; discriminate.
Qed.

End RelinkAllFrame.









Lemma forallb_ext_in {A : Type} (f g : A -> bool) l :
  (forall x, In x l -> f x = g x) -> forallb f l = forallb g l.
Proof.
  induction l as [|x l IH]; intros H; [reflexivity|]; cbn.
  rewrite (H x (or_introl eq_refl)), IH; [reflexivity|].
  intros y Hy; apply H; right; exact Hy.
Qed.

Lemma rmtree_all_spec {content : Type} (fs : FS content) ds :
  ForallOrdPairs (fun d d' => is_prefix_path d d' = false) ds ->
  match rmtree_all fs ds with
  | None => forallb (exists_ fs) ds = false
  | Some fs' => forallb (exists_ fs) ds = true /\
                forall q, fs' q = if existsb (fun d => is_prefix_path d q) ds then None else fs q
  end.
Proof.
  revert fs; induction ds as [|d ds IH]; intros fs Hord; [split; reflexivity|].
  inversion Hord as [|? ? Hd Hds]; subst.
  cbn [rmtree_all forallb existsb]; unfold rmtree.
  destruct (exists_ fs d) eqn:Ed; [|reflexivity]; cbn [andb].
  specialize (IH (fun q => if is_prefix_path d q then None else fs q) Hds).
  assert (Hsame : forallb (exists_ (fun q => if is_prefix_path d q then None else fs q)) ds =
                  forallb (exists_ fs) ds).
  { apply forallb_ext_in; intros x Hx.
    rewrite Forall_forall in Hd; unfold exists_; rewrite (Hd x Hx); reflexivity. }
  rewrite Hsame in IH.
  destruct (rmtree_all _ ds) as [fs'|]; [|exact IH].
  destruct IH as [Hall Hq]; split; [exact Hall|].
  intros q; rewrite Hq.
  destruct (is_prefix_path d q); cbn [orb]; [|reflexivity].
  destruct (existsb _ ds); reflexivity.
Qed.

Lemma is_prefix_path_app (s m1 m2 : path) :
  is_prefix_path (s ++ m1) (s ++ m2) = is_prefix_path m1 m2.
Proof.
  unfold is_prefix_path; rewrite firstn_app, length_app, firstn_all2 by lia.
  replace (length s + length m1 - length s) with (length m1) by lia.
  destruct (path_eqb (firstn (length m1) m2) m1) eqn:E.
  - apply path_eqb_true in E; rewrite E; apply path_eqb_refl.
  - apply path_eqb_false; intros H; apply app_inv_head in H.
    rewrite H, path_eqb_refl in E; discriminate.
Qed.

Lemma ForallOrdPairs_map {A B : Type} (R : B -> B -> Prop) (f : A -> B) l :
  ForallOrdPairs (fun a b => R (f a) (f b)) l -> ForallOrdPairs R (map f l).
Proof.
  induction 1 as [|a l Ha Hl IH]; cbn; constructor; [|exact IH].
  apply Forall_map; exact Ha.
Qed.

Lemma clean_dirs_disjoint (stdlib : path) :
  ForallOrdPairs (fun d d' => is_prefix_path d d' = false) (map (app stdlib) clean_mod_paths).
Proof.
  apply ForallOrdPairs_map.
  unfold clean_mod_paths; repeat constructor; rewrite is_prefix_path_app; reflexivity.
Qed.

Lemma existsb_map' {A B : Type} (f : A -> B) (p : B -> bool) l :
  existsb p (map f l) = existsb (fun x => p (f x)) l.
Proof. induction l as [|x l IH]; cbn; [reflexivity|rewrite IH; reflexivity]. Qed.

Lemma forallb_false_exists {A : Type} (p : A -> bool) l :
  forallb p l = false -> exists x, In x l /\ p x = false.
Proof.
  induction l as [|x l IH]; cbn; [discriminate|].
  destruct (p x) eqn:E; cbn; intros H.
  - destruct (IH H) as (y & Hy & Hp); exists y; auto.
  - exists x; auto.
Qed.

Lemma clean_spec {content : Type} (fs : FS content) (prefix : path) (v : Version) :
  match clean fs prefix v with
  | None => exists m, In m clean_mod_paths /\
              exists_ fs ((prefix ++ ["lib"; py_minor v]) ++ m) = false
  | Some fs' =>
      (forall m, In m clean_mod_paths -> exists_ fs ((prefix ++ ["lib"; py_minor v]) ++ m) = true) /\
      forall q, fs' q =
        if (is_prefix_path prefix q && ends_with ".pyc" (basename q) ||
            existsb (fun m => is_prefix_path ((prefix ++ ["lib"; py_minor v]) ++ m) q)
              clean_mod_paths)%bool
        then None else fs q
  end.
Proof.
  unfold clean.
  pose proof (rmtree_all_spec fs _ (clean_dirs_disjoint (prefix ++ ["lib"; py_minor v]))) as H.
  destruct (rmtree_all _ _) as [fs'|].
  - destruct H as [Hall Hq]; split.
    + intros m Hm; rewrite forallb_forall in Hall; apply Hall.
      apply in_map; exact Hm.
    + intros q; unfold find_delete_pyc; rewrite Hq, existsb_map'.
      destruct (is_prefix_path prefix q && ends_with ".pyc" (basename q))%bool; [reflexivity|].
      reflexivity.
  - apply forallb_false_exists in H as (d & Hd & Hex).
    apply in_map_iff in Hd as (m & <- & Hm).
    exists m; split; [exact Hm|]; exact Hex.
Qed.

Lemma ends_with_lacks c suf s :
  ends_with suf s = true -> lacks c suf = false -> lacks c s = false.
Proof.
  induction s as [|d s IH]; cbn [ends_with]; intros H Hs.
  - apply orb_true_iff in H as [H|H]; [|discriminate].
    apply String.eqb_eq in H; subst; exact Hs.
  - apply orb_true_iff in H as [H|H].
    + apply String.eqb_eq in H; rewrite H; exact Hs.
    + unfold lacks in *; cbn [list_ascii_of_string forallb].
      fold (lacks c s); unfold lacks; rewrite (IH H Hs), andb_false_r; reflexivity.
Qed.

Lemma py_minor_not_pyc v : ends_with ".pyc" (py_minor v) = false.
Proof.
  destruct (ends_with ".pyc" (py_minor v)) eqn:E; [|reflexivity].
  apply (ends_with_lacks "c") in E; [|reflexivity].
  unfold py_minor in E; rewrite !lacks_app, !z_str_lacks in E by reflexivity.
  discriminate.
Qed.

Lemma existsb_all_false {A : Type} (p : A -> bool) l :
  (forall x, In x l -> p x = false) -> existsb p l = false.
Proof.
  induction l as [|x l IH]; intros H; [reflexivity|]; cbn.
  rewrite (H x (or_introl eq_refl)), IH; [reflexivity|].
  intros y Hy; apply H; right; exact Hy.
Qed.

Ltac clean_miss :=
  apply existsb_all_false; intros m Hm;
  repeat (destruct Hm as [<-|Hm]); [..|contradiction];
  rewrite <- !app_assoc, is_prefix_path_app;
  apply path_eqb_false; cbn; congruence.

(** X21: [_clean] keeps what [_relink] works on next: the interpreter, the
    files directly in [lib] and the extension modules in [lib-dynload] not
    named [*.pyc]. *)
Theorem clean_keeps_relink_inputs {content : Type} (fs fs' : FS content)
    (prefix : path) (v : Version) (f : string) :
  clean fs prefix v = Some fs' -> ends_with ".pyc" f = false ->
  fs' (join (join prefix "bin") (py_minor v)) = fs (join (join prefix "bin") (py_minor v)) /\
  fs' (join (join prefix "lib") f) = fs (join (join prefix "lib") f) /\
  fs' (join (join (join (join prefix "lib") (py_minor v)) "lib-dynload") f) =
    fs (join (join (join (join prefix "lib") (py_minor v)) "lib-dynload") f).
Proof.
  intros Hc Hf; pose proof (clean_spec fs prefix v) as H; rewrite Hc in H.
  destruct H as [_ Hq]; rewrite !Hq, !basename_join, py_minor_not_pyc, Hf, !andb_false_r.
  cbn [orb]; unfold join.
  split; [|split].
  - replace (existsb _ _) with false; [reflexivity|symmetry; clean_miss].
  - replace (existsb _ _) with false; [reflexivity|symmetry; clean_miss].
  - replace (existsb _ _) with false; [reflexivity|symmetry; clean_miss].
Qed.





(** X22: When [_linux_setup_deps] execs into the container, its last argument
    is [version.s], which [main] in the container parses back to the same
    version. *)
Theorem linux_setup_deps_version (in_container : option string) (has_podman : bool)
    (uid gid : Z) (dist_abspath file_abspath file machine : string) (v : Version)
    (argv : list string) :
  linux_setup_deps in_container has_podman uid gid dist_abspath file_abspath file machine v
    = Exec argv ->
  version_parse (last argv "") = Some v.
Proof.
  unfold linux_setup_deps; intros H.
  assert (Hcmd : forall cmd, Exec cmd = Exec argv -> cmd = argv) by (intros ? [=]; auto).
  destruct in_container as [s|]; [destruct (String.eqb s "")|];
    try discriminate; apply Hcmd in H; subst argv;
    destruct has_podman; cbn [docker_run app last]; apply version_parse_s.
Qed.




(** X1: [Version.parse] inverts [Version.s]: parsing the string form of any
    version (negative fields included) gives the same version back. *)
Theorem version_s_parse_roundtrip v : version_parse (version_s v) = Some v.
Proof. exact (version_parse_s v). Qed.

(** Witness of X2. *)
Lemma version_parse_dots_witness :
  str_count "." "3.8" <> 2 /\ version_parse "3.8" = None.
Proof.
  split; [intros H; vm_compute in H; discriminate|].
  apply version_parse_dots; intros H; vm_compute in H; discriminate.
Defined.

(** Witness of X3. *)
Lemma linux_archive_name_injective_witness :
  linux_archive_name "2.28" "x86_64" v38 = linux_archive_name "2.28" "x86_64" v38 /\ v38 = v38.
Proof.
  split; [reflexivity|].
  apply (linux_archive_name_injective "2.28" "x86_64"); reflexivity.
Defined.

(** Witness of X4. *)
Lemma darwin_archive_name_injective_witness :
  darwin_archive_name "12.4" "arm64" v38 = Some "python-3.8.13-macosx_12_0_arm64.tgz" /\ v38 = v38.
Proof.
  split; [vm_compute; reflexivity|].
  apply (darwin_archive_name_injective "12.4" "arm64" v38 v38 "python-3.8.13-macosx_12_0_arm64.tgz");
    vm_compute; reflexivity.
Defined.

(** Witness of X5. *)
Lemma darwin_archive_name_minor_ignored_witness :
  darwin_archive_name "12.4" "arm64" v38 = darwin_archive_name "12.0.1" "arm64" v38.
Proof.
  apply (darwin_archive_name_minor_ignored "12" "4" "0" [] ["1"] 12 "arm64" v38);
    try reflexivity; lia.
Defined.

(** Witness of X6. *)
Lemma darwin_archive_name_no_dot_witness :
  lacks "." "12" = true /\ darwin_archive_name "12" "arm64" v38 = None.
Proof. split; [reflexivity|]. apply darwin_archive_name_no_dot; reflexivity. Defined.

(** Witness of X7. *)
Lemma darwin_configure_args_lines_witness :
  darwin_configure_args (Fixtures.text ["/opt/homebrew/opt/openssl@1.1"]) =
    Some ["--with-openssl=/opt/homebrew/opt/openssl@1.1"].
Proof. apply (darwin_configure_args_lines ["/opt/homebrew/opt/openssl@1.1"]); reflexivity. Defined.

(** Witness of X9. *)
Lemma darwin_flags_split_witness :
  let ps := ["/opt/homebrew/opt/readline"; "/opt/homebrew/opt/sqlite"] in
  let env := darwin_modify_env (Fixtures.text ps) (fun _ => None) in
  option_map (split_on ":") (env "PKG_CONFIG_PATH") =
    Some (map (fun p => ospath_join p ["lib"; "pkgconfig"]) ps).
Proof.
  intros ps env.
  refine (proj2 (proj2 (darwin_flags_split ps (fun _ => None) _ _ _ _)));
    [discriminate|reflexivity..].
Defined.

(** X10: The read loop of [_download] terminates and hashes the whole file:
    the chunks concatenate to the data, each is non-empty and at most 4096
    bytes, and all but the last are exactly 4096 bytes. *)
Theorem download_reads_whole_file data :
  exists chunks,
    download_chunks data = Some chunks /\
    concat chunks = data /\
    Forall (fun c => 0 < length c <= CHUNK) chunks /\
    (forall c, In c (removelast chunks) -> length c = CHUNK).
Proof. exact (download_chunks_spec data). Qed.

(** X12: [_extract_strip_1] removes the first path component of a member:
    [top/rest] becomes [rest], and a member without a separator becomes the
    empty path. *)
Theorem extract_strip_1_paths top rest s :
  lacks "/" top = true -> lacks "/" s = true ->
  strip_1 (String.append top (String "/" rest)) = rest /\ strip_1 s = "".
Proof. intros Ht Hs; split; [apply strip_1_top; exact Ht|apply strip_1_no_slash; exact Hs]. Qed.

(** Witness of X12. *)
Lemma extract_strip_1_paths_witness :
  strip_1 "Python-3.8.13/Lib/os.py" = "Lib/os.py" /\ strip_1 "Python-3.8.13" = "".
Proof. apply (extract_strip_1_paths "Python-3.8.13" "Lib/os.py" "Python-3.8.13"); reflexivity. Defined.

(** Witness of X13. *)
Lemma archive_members_walk_order_witness :
  archive_members "python" ["t"]
    [(["t"], ["lib"], ["README"]); (["t"; "lib"], [], ["libA.so"])] =
  archive_members "python" ["t"]
    [(["t"; "lib"], [], ["libA.so"]); (["t"], ["lib"], ["README"])].
Proof.
  apply archive_members_walk_order; cbn.
  apply (Permutation_app_comm [["t"; "lib"]; ["t"; "README"]] [["t"; "lib"; "libA.so"]]).
Defined.

(** Witness of X14. *)
Lemma archive_members_parent_first_witness :
  exists l1 l2,
    archive_members "python" ["t"] [(["t"], ["lib"], []); (["t"; "lib"], [], ["libA.so"])] =
      l1 ++ ("python/lib", "/t/lib") :: l2 /\
    In ("python/lib/libA.so", "/t/lib/libA.so") l2.
Proof.
  apply (archive_members_parent_first "python" ["t"]
           [(["t"], ["lib"], []); (["t"; "lib"], [], ["libA.so"])]
           ("python/lib", "/t/lib") ("python/lib/libA.so", "/t/lib/libA.so") "libA.so");
    [vm_compute; repeat first [left; reflexivity | right] ..|reflexivity].
Defined.

(** Witness of X15. *)
Lemma archive_members_layout_witness :
  In ("python/lib/libA.so", "/t/lib/libA.so")
     (archive_members "python" ["t"]
        [(["t"], ["lib"], []); (["t"; "lib"], [], ["libA.so"])]) /\
  ((("python/lib/libA.so", "/t/lib/libA.so") = ("python", render ["t"]) /\
    strip_1 "python/lib/libA.so" = "") \/
   exists rel, rel <> [] /\ forallb proper_name rel = true /\
     ("python/lib/libA.so", "/t/lib/libA.so") =
       (String.append "python" (String "/" (String.concat "/" rel)), render (app ["t"] rel)) /\
     strip_1 "python/lib/libA.so" = String.concat "/" rel).
Proof.
  assert (Hin : In ("python/lib/libA.so", "/t/lib/libA.so")
                  (archive_members "python" ["t"]
                     [(["t"], ["lib"], []); (["t"; "lib"], [], ["libA.so"])]))
    by (vm_compute; repeat first [left; reflexivity | right]).
  split; [exact Hin|].
  refine (archive_members_layout "python" ["t"]
            [(["t"], ["lib"], []); (["t"; "lib"], [], ["libA.so"])] eq_refl _ _ Hin).
  constructor; [exists []; split; reflexivity|].
  constructor; [exists ["lib"]; split; reflexivity|].
  constructor.
Defined.

(** Witness of X16. *)
Lemma linux_archive_top_name_witness :
  fst (splitext (str_basename (ospath_join1 "/tmp/tmpabc"
                                 (linux_archive_name "2.28" "x86_64" v38)))) =
  "python-3.8.13-manylinux_2_28_x86_64".
Proof.
  rewrite (linux_archive_top_name "/tmp/tmpabc" "2.28" "x86_64" v38) by reflexivity.
  vm_compute; reflexivity.
Defined.

(** Witness of X17. *)
Lemma relink_targets_resolve_witness :
  exists rel,
    In ["install_name_tool"; "-change"; render ["opt"; "openssl"; "lib"; "libssl.dylib"];
        String.append "@loader_path/" rel;
        render ["t"; "lib"; "python3.8"; "lib-dynload"; "_ssl.so"]]
       (darwin_relink_cmds ["t"; "lib"; "python3.8"; "lib-dynload"; "_ssl.so"] ["t"; "lib"]
          false [["opt"; "openssl"; "lib"; "libssl.dylib"]]) /\
    resolve ["t"; "lib"; "python3.8"; "lib-dynload"] rel = ["t"; "lib"; "libssl.dylib"].
Proof.
  exact (proj1 (proj2 (relink_targets_resolve
           ["t"; "lib"; "python3.8"; "lib-dynload"; "_ssl.so"] ["t"; "lib"] false
           [["opt"; "openssl"; "lib"; "libssl.dylib"]] eq_refl))
           ["opt"; "openssl"; "lib"; "libssl.dylib"] (or_introl eq_refl) eq_refl).
Defined.

(** Witness of X18. *)
Lemma relink_all_terminates_witness :
  finite_names (Toy.toy_names toy_python_files) (Toy.mk toy_python_files) /\
  relink_all Toy.plat (S (length (Toy.toy_names toy_python_files)))
    (Toy.start toy_python_files) ["p"] v38 ["_ssl.so"] <> OutOfFuel.
Proof.
  split; [apply ToyFacts.mk_finite|].
  apply (relink_all_terminates Toy.plat ToyFacts.toy_linked_exists ToyFacts.toy_relink_keeps
           (Toy.toy_names toy_python_files)).
  apply ToyFacts.mk_finite.
Defined.

(** Witness of X19. *)
Lemma relink_all_copies_witness :
  let w' := Toy.final (relink_all Toy.plat 10 (Toy.start toy_python_files) ["p"] v38
                         ["_ssl.so"]) in
  relink_all Toy.plat 10 (Toy.start toy_python_files) ["p"] v38 ["_ssl.so"] = Ok w' /\
  exists new,
    w_log w' = [] ++ Relinked ["p"; "bin"; "python3.8"] false :: new /\
    NoDup (copied_files new) /\
    (forall d, In d (copied_files new) ->
       exists_ (Toy.mk toy_python_files) d = false /\ exists_ (w_fs w') d = true /\
       in_libdir ["p"; "lib"] d).
Proof.
  intros w'.
  assert (H : relink_all Toy.plat 10 (Toy.start toy_python_files) ["p"] v38 ["_ssl.so"] = Ok w')
    by (vm_compute; reflexivity).
  split; [exact H|].
  exact (relink_all_copies Toy.plat ToyFacts2.toy_relink_frame 10 _ _ ["p"] v38 ["_ssl.so"] H).
Defined.

(** Witness of X21. *)
Lemma clean_keeps_relink_inputs_witness :
  let fs0 : FS nat := fun _ => Some 0 in
  let fs1 := match clean fs0 ["p"] v38 with Some g => g | None => fs0 end in
  clean fs0 ["p"] v38 = Some fs1 /\ ends_with ".pyc" "_ssl.so" = false /\
  fs1 ["p"; "bin"; "python3.8"] = Some 0 /\
  fs1 ["p"; "lib"; "_ssl.so"] = Some 0 /\
  fs1 ["p"; "lib"; "python3.8"; "lib-dynload"; "_ssl.so"] = Some 0.
Proof.
  intros fs0 fs1.
  assert (H : clean fs0 ["p"] v38 = Some fs1) by reflexivity.
  split; [exact H|split; [reflexivity|]].
  exact (clean_keeps_relink_inputs fs0 fs1 ["p"] v38 "_ssl.so" H eq_refl).
Defined.

(** Witness of X22. *)
Lemma linux_setup_deps_version_witness :
  let argv := match linux_setup_deps None true 1000 1000 "/src/dist" "/src/build_binary.py"
                      "build_binary.py" "x86_64" v38 with
              | Exec a => a | SetupReturn _ => [] end in
  linux_setup_deps None true 1000 1000 "/src/dist" "/src/build_binary.py"
    "build_binary.py" "x86_64" v38 = Exec argv /\
  version_parse (last argv "") = Some v38.
Proof.
  intros argv.
  assert (H : linux_setup_deps None true 1000 1000 "/src/dist" "/src/build_binary.py"
                "build_binary.py" "x86_64" v38 = Exec argv) by reflexivity.
  split; [exact H|].
  exact (linux_setup_deps_version None true 1000 1000 "/src/dist" "/src/build_binary.py"
           "build_binary.py" "x86_64" v38 argv H).
Defined.
